(** * Flash-banner fade script: [static/script.js]

    The script registers one [DOMContentLoaded] listener.  When the event is
    dispatched the listener queries the document for the elements matching
    the selector [".flash"] and, for each of them, registers a timer with a
    delay of 3000 whose callback writes [0] to the element's inline
    [opacity] style.

    The script itself is six lines; everything it talks to is the hosting
    browser.  The development therefore embeds the script over a small model
    of the host: a document (element objects addressed by handles, a list of
    the attached ones in document order), an event-listener table, a timer
    queue and a logical clock.

    Conventions of the host model:
    - time is a logical clock in milliseconds ([N]); a timer runs at the
      instant the clock reaches its due time (dispatch latency of the real
      event loop is not modelled);
    - an element object lives as long as something refers to it, so
      detaching an element removes it from the tree only;
    - an HTML or SVG element carries an inline style declaration; an element
      of another namespace (one made by [createElementNS] with a foreign
      namespace, say) has no [style] property at all, though it has a class
      list like any element;
    - style values are the strings the CSS object model stores (the number
      [0] written by the script is stored as ["0"]);
    - an exception escaping a listener or a timer callback is reported,
      recorded in [exceptions], and the event loop goes on. *)

From stdpp Require Import gmap gmultiset strings list fin_maps sorting.
From Stdlib Require Import NArith Ascii.

Open Scope string_scope.
Open Scope list_scope.
Open Scope N_scope.

(** ** Documents *)

Abbreviation handle := nat.

(** [style] is [None] for an element that has no [style] property. *)
Record Element := mkElement {
  classList : list string;
  style : option (gmap string string)
}.

(** [nodes] holds every element object the page can still reach, attached
    or not; [tree] lists the attached ones in document order. *)
Record Document := mkDocument {
  nodes : gmap nat Element;
  tree : list nat
}.

Inductive Selector :=
| ClassSel (c : string).

(** The fragment of the selector grammar the script uses: a single class
    selector.  Any other string is treated as a syntax error. *)
Definition parse_selector (sel : string) : option Selector :=
  match sel with
  | String "."%char c => Some (ClassSel c)
  | _ => None
  end.

Definition has_class (c : string) (d : Document) (h : handle) : bool :=
  match nodes d !! h with
  | Some e => bool_decide (c ∈ classList e)
  | None => false
  end.

Definition select (q : Selector) (d : Document) : list handle :=
  match q with
  | ClassSel c => filter (λ h, has_class c d h) (tree d)
  end.

(** [document.querySelectorAll(sel)]: a static list, in document order, of
    the attached elements that match; [None] stands for the [SyntaxError]
    thrown on a selector that does not parse. *)
Definition querySelectorAll (sel : string) (d : Document) : option (list handle) :=
  q ← parse_selector sel; Some (select q d).

(** Writing property [p] of the inline style declaration of [e], when
    there is one. *)
Definition set_style (p v : string) (e : Element) : Element :=
  mkElement (classList e) (<[p := v]> <$> style e).

(** ** Closures of the script *)

(** [FadeOut f] is the arrow function [() => { f.style.opacity = 0; }]
    with [f] captured. *)
Inductive Closure :=
| FadeOut (f : handle).

Definition captured (k : Closure) : handle :=
  match k with FadeOut f => f end.

(** Running a closure on the document.  [f.style.opacity = 0] first reads
    [f.style]; when [f] has no such property the read gives [undefined] and
    the write to [undefined.opacity] throws a [TypeError], which is the
    result [None] (as is a reference that denotes no element). *)
Definition call (k : Closure) (d : Document) : option Document :=
  match k with
  | FadeOut f =>
      e ← nodes d !! f;
      _ ← style e;
      Some (mkDocument (<[f := set_style "opacity" "0" e]> (nodes d)) (tree d))
  end.

(** The listener the script registers at line 2. *)
Inductive Listener :=
| OnReady.

(** ** Host state *)

(** The exceptions the script can raise: the [SyntaxError] of a selector
    that does not parse, and the [TypeError] of the callback that captured
    [f]. *)
Inductive Exception :=
| SyntaxError
| TypeError (f : handle).

Global Instance Exception_eq_dec : EqDecision Exception.
Proof. solve_decision. Defined.

Global Instance Exception_countable : Countable Exception :=
  inj_countable'
    (λ x, match x with SyntaxError => None | TypeError f => Some f end)
    (λ o, match o with None => SyntaxError | Some f => TypeError f end)
    (λ x, match x with SyntaxError => eq_refl | TypeError _ => eq_refl end).

Record Timer := mkTimer {
  due : N;
  callback : Closure
}.

Record Host := mkHost {
  document : Document;
  clock : N;
  listeners : list (string * Listener);
  timers : list Timer;          (* pending, in registration order *)
  storage : gmap string string; (* localStorage / cookies *)
  requests : list string;       (* network requests issued so far *)
  exceptions : gmultiset Exception; (* those that reached the event loop *)
  invocations : nat             (* ghost: calls of the [OnReady] listener *)
}.

Definition with_document (d : Document) (s : Host) : Host :=
  mkHost d (clock s) (listeners s) (timers s) (storage s) (requests s)
         (exceptions s) (invocations s).

Definition with_timers (ts : list Timer) (s : Host) : Host :=
  mkHost (document s) (clock s) (listeners s) ts (storage s) (requests s)
         (exceptions s) (invocations s).

Definition with_clock (t : N) (s : Host) : Host :=
  mkHost (document s) t (listeners s) (timers s) (storage s) (requests s)
         (exceptions s) (invocations s).

Definition with_listeners (ls : list (string * Listener)) (s : Host) : Host :=
  mkHost (document s) (clock s) ls (timers s) (storage s) (requests s)
         (exceptions s) (invocations s).

Definition throw (x : Exception) (s : Host) : Host :=
  mkHost (document s) (clock s) (listeners s) (timers s) (storage s)
         (requests s) (exceptions s ⊎ {[+ x +]}) (invocations s).

(** How many exceptions reached the event loop. *)
Definition uncaught (s : Host) : nat := size (exceptions s).

Definition enter_listener (s : Host) : Host :=
  mkHost (document s) (clock s) (listeners s) (timers s) (storage s)
         (requests s) (exceptions s) (S (invocations s)).

(** ** Host API used by the script *)

(** [setTimeout(k, delay)]; the timer id it returns is dropped by the
    script and not modelled. *)
Definition setTimeout (k : Closure) (delay : N) (s : Host) : Host :=
  with_timers (timers s ++ [mkTimer (clock s + delay) k]) s.

Definition addEventListener (ty : string) (l : Listener) (s : Host) : Host :=
  with_listeners (listeners s ++ [(ty, l)]) s.

(** ** The script *)

(** Lines 3-6: the body of the listener.  [forEach] is a left fold over the
    static node list. *)
Definition on_ready (s : Host) : Host :=
  let s := enter_listener s in
  match querySelectorAll ".flash" (document s) with
  | Some flashes => foldl (λ s f, setTimeout (FadeOut f) 3000 s) s flashes
  | None => throw SyntaxError s
  end.

Definition run_listener (l : Listener) : Host → Host :=
  match l with OnReady => on_ready end.

(** Line 2: the top level of the script. *)
Definition script (s : Host) : Host :=
  addEventListener "DOMContentLoaded" OnReady s.

(** ** The event loop *)

(** Dispatching an event of type [ty] on the document runs, in registration
    order, the listeners registered for [ty] when the dispatch starts.
    Listeners stay registered ([addEventListener] was called without
    [once]). *)
Definition dispatchEvent (ty : string) (s : Host) : Host :=
  foldl (λ s r, if decide (r.1 = ty) then run_listener r.2 s else s)
        s (listeners s).

Definition run_timer (s : Host) (t : Timer) : Host :=
  match call (callback t) (document s) with
  | Some d => with_document d s
  | None => throw (TypeError (captured (callback t))) s
  end.

(** [dt] milliseconds pass: the timers that have fallen due leave the queue
    and their callbacks run in queue order. *)
Definition elapse (dt : N) (s : Host) : Host :=
  let now := clock s + dt in
  foldl run_timer
        (with_timers (filter (λ t, now < due t) (timers s)) (with_clock now s))
        (filter (λ t, due t ≤ now) (timers s)).

(** ** What the rest of the page may do meanwhile *)

Definition removeChild (h : handle) (d : Document) : Document :=
  mkDocument (nodes d) (filter (λ x, x ≠ h) (tree d)).

(** A newly created element is appended; a handle already in use denotes an
    existing object and cannot be created again. *)
Definition insertElement (h : handle) (e : Element) (d : Document) : Document :=
  match nodes d !! h with
  | Some _ => d
  | None => mkDocument (<[h := e]> (nodes d)) (tree d ++ [h])
  end.

Definition add_class (c : string) (e : Element) : Element :=
  mkElement (if bool_decide (c ∈ classList e) then classList e
             else classList e ++ [c])
            (style e).

Definition classList_add (h : handle) (c : string) (d : Document) : Document :=
  mkDocument (alter (add_class c) h (nodes d)) (tree d).

Inductive Action :=
| Dispatch (ty : string)
| Elapse (dt : N)
| RemoveChild (h : handle)
| InsertElement (h : handle) (e : Element)
| ClassAdd (h : handle) (c : string).

Definition perform (s : Host) (a : Action) : Host :=
  match a with
  | Dispatch ty => dispatchEvent ty s
  | Elapse dt => elapse dt s
  | RemoveChild h => with_document (removeChild h (document s)) s
  | InsertElement h e => with_document (insertElement h e (document s)) s
  | ClassAdd h c => with_document (classList_add h c (document s)) s
  end.

Definition run (tr : list Action) (s : Host) : Host := foldl perform s tr.

(** Time that passes during a trace. *)
Definition elapsed (tr : list Action) : N :=
  foldr (λ a n, match a with Elapse dt => dt + n | _ => n end) 0 tr.

(** A freshly parsed page showing document [d], before any script ran. *)
Definition page (d : Document) : Host :=
  mkHost d 0 [] [] ∅ [] ∅ 0.

(** The page load: the script is evaluated, then the browser dispatches
    [DOMContentLoaded]. *)
Definition boot (d : Document) : Host :=
  dispatchEvent "DOMContentLoaded" (script (page d)).

(** Observations. *)
Definition style_of (h : handle) (p : string) (s : Host) : option string :=
  e ← nodes (document s) !! h; st ← style e; st !! p.

(** The element exists and has a [style] property. *)
Definition styled (d : Document) (h : handle) : Prop :=
  is_Some (nodes d !! h ≫= style).

Definition flashes (d : Document) : list handle := select (ClassSel "flash") d.

(** ** A concrete page: two banners and a paragraph *)

Definition banner1 : Element := mkElement ["flash"; "success"] (Some ∅).
Definition banner2 : Element := mkElement ["flash"] (Some {["color" := "red"]}).
Definition para : Element := mkElement ["lead"] (Some {["opacity" := "0.5"]}).

Definition demo : Document :=
  mkDocument (<[1%nat := banner1]> (<[2%nat := para]> (<[3%nat := banner2]> ∅)))
             [1; 2; 3]%nat.

(** A banner of a foreign namespace: it has the class, but no [style]. *)
Definition foreign : Element := mkElement ["flash"] None.

(** A page with an HTML banner and a foreign one. *)
Definition mixed : Document :=
  mkDocument (<[1%nat := banner1]> (<[4%nat := foreign]> ∅)) [1; 4]%nat.

(** A page without banners. *)
Definition quiet_page : Document :=
  mkDocument (<[2%nat := para]> ∅) [2]%nat.

(** ** Notions used in the statements and invariants *)

(** The element a timer's callback captured. *)
Definition target (t : Timer) : handle := captured (callback t).

(** The timers of a queue that have fallen due at [now], and the rest. *)
Definition ready (now : N) (ts : list Timer) : list Timer :=
  filter (λ t, due t ≤ now) ts.

Definition waiting (now : N) (ts : list Timer) : list Timer :=
  filter (λ t, now < due t) ts.

(** The timers one call of the listener registers in state [s]. *)
Definition fade_timers (s : Host) : list Timer :=
  (λ f, mkTimer (clock s + 3000) (FadeOut f)) <$> flashes (document s).

(** How many of the listeners [ls] are registered for events of type [ty]. *)
Definition hits (ty : string) (ls : list (string * Listener)) : nat :=
  length (filter (λ r, r.1 = ty) ls).

(** The three things the page does to the document on its own. *)
Definition page_action (a : Action) : Prop :=
  match a with
  | Dispatch _ | Elapse _ => False
  | _ => True
  end.

(** Every pending timer was registered with the 3000 delay and captures a
    live element object. *)
Definition sound (s : Host) : Prop :=
  ∀ t, t ∈ timers s →
       3000 ≤ due t ∧ is_Some (nodes (document s) !! target t).

(** Every recorded exception is the [TypeError] of a callback whose element
    has no [style] property. *)
Definition blameless (s : Host) : Prop :=
  ∀ x, x ∈ exceptions s →
       ∃ g, x = TypeError g ∧ style <$> nodes (document s) !! g = Some None.

(** Either the element's timer is still pending, or the element is faded. *)
Definition fading (f : handle) (s : Host) : Prop :=
  styled (document s) f
  ∧ ((clock s < 3000 ∧ mkTimer 3000 (FadeOut f) ∈ timers s)
     ∨ style_of f "opacity" s = Some "0").

(** A host in which the script was never evaluated. *)
Definition plain (s : Host) : Prop := listeners s = [] ∧ timers s = [].

(** [s] runs the script, [s0] is the same page without it: the trees
    agree, every pending timer captures one of the handles of [F], and an
    element of [s] is the element of [s0], possibly with opacity ["0"]
    when its handle is in [F]. *)
Definition mirrors (F : list handle) (s s0 : Host) : Prop :=
  tree (document s) = tree (document s0)
  ∧ (∀ t, t ∈ timers s → target t ∈ F)
  ∧ ∀ h, nodes (document s) !! h = nodes (document s0) !! h
         ∨ (h ∈ F ∧ nodes (document s) !! h
                    = set_style "opacity" "0" <$> nodes (document s0) !! h).

(** The element object exists but is not attached. *)
Definition detached (f : handle) (s : Host) : Prop :=
  is_Some (nodes (document s) !! f) ∧ f ∉ tree (document s).

(** A schedule is a list of successive waits; [total] is their sum. *)
Definition total (sched : list N) : N := foldr N.add 0 sched.

(** ** Notions for repeated inclusion, trigger counting and deadlines *)

(** The page evaluates the script [k] times (it includes it [k] times). *)
Definition include (k : nat) (s : Host) : Host := Nat.iter k script s.

(** The action is a dispatch of the event the script listens to. *)
Definition is_ready (a : Action) : bool :=
  match a with
  | Dispatch ty => bool_decide (ty = "DOMContentLoaded")
  | _ => false
  end.

Definition ready_events (tr : list Action) : nat :=
  length (filter (λ a, is_ready a) tr).

(** As [fading], for a trigger at an arbitrary instant: the element's
    timer, due at [T], is still pending, or the element is faded. *)
Definition fading_by (T : N) (f : handle) (s : Host) : Prop :=
  styled (document s) f
  ∧ ((clock s < T ∧ mkTimer T (FadeOut f) ∈ timers s)
     ∨ style_of f "opacity" s = Some "0").

Definition due_order (t1 t2 : Timer) : Prop := due t1 ≤ due t2.

(** The queue is ordered by due time, and nothing in it is due later than
    a timer registered now would be. *)
Definition fifo (s : Host) : Prop :=
  StronglySorted due_order (timers s)
  ∧ ∀ t, t ∈ timers s → due t ≤ clock s + 3000.

(** Every pending timer is due at [T], and [T] is still ahead. *)
Definition pending_at (T : N) (s : Host) : Prop :=
  ∀ t, t ∈ timers s → due t = T ∧ clock s < T.

(** Membership in a literal list, and absence of a [DOMContentLoaded]
    dispatch from a literal trace. *)
Ltac in_list := vm_compute; repeat constructor.

Ltac not_ready :=
  repeat (apply not_elem_of_cons; split; [discriminate|]);
  apply not_elem_of_nil.

(** * Properties *)

(** ** The concrete page *)

Example demo_flashes : flashes demo = [1; 3]%nat.
Proof. reflexivity. Qed.

Example demo_boot_timers :
  timers (boot demo) = [mkTimer 3000 (FadeOut 1); mkTimer 3000 (FadeOut 3)].
Proof. reflexivity. Qed.

Example demo_after_3000 :
  let s := run [Elapse 3000] (boot demo) in
  style_of 1 "opacity" s = Some "0" ∧ style_of 3 "opacity" s = Some "0"
  ∧ style_of 2 "opacity" s = Some "0.5" ∧ style_of 3 "color" s = Some "red"
  ∧ timers s = [] ∧ uncaught s = 0%nat.
Proof. vm_compute. done. Qed.

(** An element that gets the class after the trigger keeps its opacity. *)
Example demo_late_class :
  let s := run [ClassAdd 2 "flash"; Elapse 5000] (boot demo) in
  has_class "flash" (document s) 2 = true
  ∧ style_of 2 "opacity" s = Some "0.5".
Proof. vm_compute. done. Qed.

(** A banner detached before its timer runs is faded all the same. *)
Example demo_detached :
  let s := run [Elapse 1000; RemoveChild 1; Elapse 2000] (boot demo) in
  tree (document s) = [2; 3]%nat
  ∧ style_of 1 "opacity" s = Some "0" ∧ uncaught s = 0%nat.
Proof. vm_compute. done. Qed.

(** A matched element without a [style] property: its callback throws at
    [f.style.opacity], nothing is written to it, and the other banner is
    faded all the same. *)
Example mixed_after_3000 :
  let s := run [Elapse 3000] (boot mixed) in
  flashes mixed = [1; 4]%nat
  ∧ style_of 1 "opacity" s = Some "0" ∧ style_of 4 "opacity" s = None
  ∧ exceptions s = {[+ TypeError 4 +]} ∧ uncaught s = 1%nat.
Proof.
  cbv zeta. repeat split; vm_compute; reflexivity.
Qed.

(** The listener is registered without [once]: a further dispatch of the
    same event, which a browser does not perform during a page load, would
    run it again. *)
Example demo_second_dispatch :
  let s := run [Dispatch "DOMContentLoaded"] (boot demo) in
  invocations s = 2%nat ∧ length (timers s) = 4%nat.
Proof. vm_compute. done. Qed.

(** ** The listener in closed form *)

Lemma querySelectorAll_flash d :
  querySelectorAll ".flash" d = Some (flashes d).
Proof. reflexivity. Qed.

Lemma has_class_spec c d h :
  has_class c d h ↔ ∃ e, nodes d !! h = Some e ∧ c ∈ classList e.
Proof.
  unfold has_class. destruct (nodes d !! h) as [e|]; split.
  - intros Hc. exists e. split; [done|]. by apply bool_decide_unpack in Hc.
  - intros (e' & [= <-] & Hc). by apply bool_decide_pack.
  - intros [].
  - by intros (e' & [=] & _).
Qed.

Lemma elem_of_flashes d h :
  h ∈ flashes d ↔ h ∈ tree d ∧ ∃ e, nodes d !! h = Some e ∧ "flash" ∈ classList e.
Proof.
  unfold flashes, select. rewrite list_elem_of_filter, has_class_spec. tauto.
Qed.

Lemma forEach_setTimeout (fs : list handle) s :
  foldl (λ s f, setTimeout (FadeOut f) 3000 s) s fs
  = with_timers (timers s ++ ((λ f, mkTimer (clock s + 3000) (FadeOut f)) <$> fs)) s.
Proof.
  revert s. induction fs as [|f fs IH]; intros s; simpl.
  - rewrite app_nil_r. by destruct s.
  - rewrite IH. unfold setTimeout, with_timers; simpl.
    by rewrite <- app_assoc.
Qed.

Lemma on_ready_eq s :
  on_ready s
  = mkHost (document s) (clock s) (listeners s)
           (timers s ++ ((λ f, mkTimer (clock s + 3000) (FadeOut f))
                         <$> flashes (document s)))
           (storage s) (requests s) (exceptions s) (S (invocations s)).
Proof.
  unfold on_ready. cbv zeta.
  change (document (enter_listener s)) with (document s).
  rewrite querySelectorAll_flash, forEach_setTimeout. reflexivity.
Qed.

(** ** Running timer callbacks *)

Lemma set_style_idemp p v e : set_style p v (set_style p v e) = set_style p v e.
Proof.
  unfold set_style; simpl. destruct (style e) as [st|]; simpl; [|done].
  by rewrite insert_insert_eq.
Qed.

Lemma host_ext s1 s2 :
  nodes (document s1) = nodes (document s2) →
  tree (document s1) = tree (document s2) →
  clock s1 = clock s2 → listeners s1 = listeners s2 → timers s1 = timers s2 →
  storage s1 = storage s2 → requests s1 = requests s2 →
  exceptions s1 = exceptions s2 → invocations s1 = invocations s2 →
  s1 = s2.
Proof.
  destruct s1 as [[n1 t1] ? ? ? ? ? ? ?], s2 as [[n2 t2] ? ? ? ? ? ? ?]; simpl.
  by intros -> -> -> -> -> -> -> -> ->.
Qed.

(** One callback: the captured element, if the reference denotes one, gets
    opacity ["0"]; every other binding of [nodes] is left alone. *)
Lemma run_timer_lookup s t h :
  nodes (document (run_timer s t)) !! h
  = if decide (h = target t)
    then set_style "opacity" "0" <$> nodes (document s) !! h
    else nodes (document s) !! h.
Proof.
  unfold run_timer, target. destruct t as [n [f]]; simpl.
  destruct (nodes (document s) !! f) as [e|] eqn:Hf; simpl.
  - destruct (style e) as [st|] eqn:Hst; simpl.
    + case_decide as Hh.
      * subst h. by rewrite lookup_insert_eq, Hf.
      * by rewrite lookup_insert_ne.
    + case_decide as Hh; [|done]. subst h. rewrite Hf. simpl.
      unfold set_style. rewrite Hst. by destruct e; simplify_eq/=.
  - case_decide as Hh; [subst h; by rewrite Hf | done].
Qed.

Lemma styled_run_timer s t h :
  styled (document (run_timer s t)) h ↔ styled (document s) h.
Proof.
  unfold styled. rewrite run_timer_lookup. case_decide; [|done].
  destruct (nodes (document s) !! h) as [e|]; simpl; [|done].
  by rewrite fmap_is_Some.
Qed.

Lemma run_timer_exceptions s t :
  exceptions (run_timer s t)
  = if decide (styled (document s) (target t))
    then exceptions s else exceptions s ⊎ {[+ TypeError (target t) +]}.
Proof.
  unfold run_timer, target, styled. destruct t as [n [f]]; simpl.
  destruct (nodes (document s) !! f) as [e|]; simpl; [|done].
  by destruct (style e).
Qed.

Lemma uncaught_throw x s : uncaught (throw x s) = S (uncaught s).
Proof.
  unfold uncaught, throw; simpl.
  rewrite gmultiset_size_disj_union, gmultiset_size_singleton. lia.
Qed.

Lemma run_timer_frame s t :
  tree (document (run_timer s t)) = tree (document s)
  ∧ clock (run_timer s t) = clock s
  ∧ listeners (run_timer s t) = listeners s
  ∧ timers (run_timer s t) = timers s
  ∧ storage (run_timer s t) = storage s
  ∧ requests (run_timer s t) = requests s
  ∧ invocations (run_timer s t) = invocations s.
Proof.
  unfold run_timer. destruct t as [n [f]]; simpl.
  destruct (nodes (document s) !! f) as [e|]; simpl; [|done].
  by destruct (style e).
Qed.

Lemma run_timers_frame ts s :
  tree (document (foldl run_timer s ts)) = tree (document s)
  ∧ clock (foldl run_timer s ts) = clock s
  ∧ listeners (foldl run_timer s ts) = listeners s
  ∧ timers (foldl run_timer s ts) = timers s
  ∧ storage (foldl run_timer s ts) = storage s
  ∧ requests (foldl run_timer s ts) = requests s
  ∧ invocations (foldl run_timer s ts) = invocations s.
Proof.
  revert s. induction ts as [|t ts IH]; intros s; simpl; [done|].
  destruct (IH (run_timer s t)) as (-> & -> & -> & -> & -> & -> & ->).
  apply run_timer_frame.
Qed.

Lemma run_timers_lookup ts s h :
  nodes (document (foldl run_timer s ts)) !! h
  = if decide (h ∈ target <$> ts)
    then set_style "opacity" "0" <$> nodes (document s) !! h
    else nodes (document s) !! h.
Proof.
  revert s. induction ts as [|t ts IH]; intros s; simpl; [done|].
  rewrite IH, run_timer_lookup.
    pose proof (elem_of_cons (target <$> ts) h (target t)) as Hc.
    repeat case_decide; try tauto; try done.
    destruct (nodes (document s) !! h) as [e|]; simpl; [|done].
    by rewrite set_style_idemp.
Qed.

Lemma run_timers_is_Some ts s h :
  is_Some (nodes (document (foldl run_timer s ts)) !! h)
  ↔ is_Some (nodes (document s) !! h).
Proof.
  rewrite run_timers_lookup. case_decide; [|done].
  by rewrite fmap_is_Some.
Qed.

Lemma styled_run_timers ts s h :
  styled (document (foldl run_timer s ts)) h ↔ styled (document s) h.
Proof.
  revert s. induction ts as [|t ts IH]; intros s; [done|].
  simpl. by rewrite IH, styled_run_timer.
Qed.

(** The callbacks that throw are those whose element has no [style]. *)
Lemma run_timers_exceptions ts s :
  exceptions (foldl run_timer s ts)
  = exceptions s
    ⊎ list_to_set_disj
        (TypeError ∘ target
           <$> filter (λ t, ¬ styled (document s) (target t)) ts).
Proof.
  revert s. induction ts as [|t ts IH]; intros s; simpl.
  - by rewrite (right_id_L ∅ (⊎)).
  - rewrite IH, run_timer_exceptions.
    assert (Hf : filter (λ t0, ¬ styled (document (run_timer s t)) (target t0)) ts
                 = filter (λ t0, ¬ styled (document s) (target t0)) ts).
    { apply list_filter_iff. intros t0. by rewrite styled_run_timer. }
    rewrite Hf.
    destruct (decide (styled (document s) (target t))) as [Hs|Hs].
    + rewrite filter_cons_False by tauto. done.
    + rewrite filter_cons_True by done. rewrite fmap_cons.
      rewrite list_to_set_disj_cons. simpl.
      by rewrite (assoc_L (⊎)).
Qed.

Lemma size_list_to_set_disj `{Countable A} (l : list A) :
  size (list_to_set_disj l : gmultiset A) = length l.
Proof.
  induction l as [|x l IH]; [by rewrite list_to_set_disj_nil, gmultiset_size_empty|].
  rewrite list_to_set_disj_cons, gmultiset_size_disj_union,
          gmultiset_size_singleton, IH. done.
Qed.

Lemma run_timers_uncaught ts s :
  uncaught (foldl run_timer s ts)
  = (uncaught s
     + length (filter (λ t, ¬ styled (document s) (target t)) ts))%nat.
Proof.
  unfold uncaught. rewrite run_timers_exceptions, gmultiset_size_disj_union.
  by rewrite size_list_to_set_disj, length_fmap.
Qed.

(** The order in which a batch of callbacks runs is immaterial. *)
Lemma run_timers_permutation s (ts1 ts2 : list Timer) :
  ts1 ≡ₚ ts2 → foldl run_timer s ts1 = foldl run_timer s ts2.
Proof.
  intros Hp.
  destruct (run_timers_frame ts1 s) as (T1 & C1 & L1 & Q1 & S1 & R1 & I1).
  destruct (run_timers_frame ts2 s) as (T2 & C2 & L2 & Q2 & S2 & R2 & I2).
  apply host_ext; try congruence.
  - apply map_eq. intros h. rewrite !run_timers_lookup.
    destruct (decide (h ∈ target <$> ts1)) as [H1|H1];
      destruct (decide (h ∈ target <$> ts2)) as [H2|H2]; try done;
      exfalso; rewrite Hp in H1; contradiction.
  - rewrite !run_timers_exceptions. by rewrite Hp.
Qed.

(** ** Passing time, in closed form *)

Lemma elapse_frame dt s :
  tree (document (elapse dt s)) = tree (document s)
  ∧ clock (elapse dt s) = clock s + dt
  ∧ listeners (elapse dt s) = listeners s
  ∧ timers (elapse dt s) = waiting (clock s + dt) (timers s)
  ∧ storage (elapse dt s) = storage s
  ∧ requests (elapse dt s) = requests s
  ∧ invocations (elapse dt s) = invocations s.
Proof.
  unfold elapse. cbv zeta.
  destruct (run_timers_frame (filter (λ t, due t ≤ clock s + dt) (timers s))
              (with_timers (filter (λ t, clock s + dt < due t) (timers s))
                           (with_clock (clock s + dt) s)))
    as (-> & -> & -> & -> & -> & -> & ->).
  done.
Qed.

Lemma elapse_lookup dt s h :
  nodes (document (elapse dt s)) !! h
  = if decide (h ∈ target <$> ready (clock s + dt) (timers s))
    then set_style "opacity" "0" <$> nodes (document s) !! h
    else nodes (document s) !! h.
Proof. unfold elapse. cbv zeta. by rewrite run_timers_lookup. Qed.

Lemma elapse_exceptions dt s :
  exceptions (elapse dt s)
  = exceptions s
    ⊎ list_to_set_disj
        (TypeError ∘ target
           <$> filter (λ t, ¬ styled (document s) (target t))
                      (ready (clock s + dt) (timers s))).
Proof. unfold elapse. cbv zeta. by rewrite run_timers_exceptions. Qed.

Lemma elapse_uncaught dt s :
  uncaught (elapse dt s)
  = (uncaught s
     + length (filter (λ t, ¬ styled (document s) (target t))
                      (ready (clock s + dt) (timers s))))%nat.
Proof. unfold elapse. cbv zeta. by rewrite run_timers_uncaught. Qed.

(** ** Dispatch, in closed form *)

Lemma dispatch_fold ty ls s :
  foldl (λ s r, if decide (r.1 = ty) then run_listener r.2 s else s) s ls
  = mkHost (document s) (clock s) (listeners s)
           (timers s ++ mjoin (replicate (hits ty ls) (fade_timers s)))
           (storage s) (requests s) (exceptions s)
           (invocations s + hits ty ls).
Proof.
  unfold hits. revert s. induction ls as [|[ty' []] ls IH]; intros s.
  - simpl. rewrite app_nil_r, Nat.add_0_r. by destruct s.
  - cbn [foldl fst snd run_listener].
    destruct (decide (ty' = ty)) as [->|Hne].
    + rewrite filter_cons_True by done. rewrite IH, on_ready_eq. simpl.
      unfold fade_timers; simpl. rewrite <- app_assoc.
      f_equal. lia.
    + rewrite filter_cons_False by done. apply IH.
Qed.

Lemma dispatchEvent_eq ty s :
  dispatchEvent ty s
  = mkHost (document s) (clock s) (listeners s)
           (timers s ++ mjoin (replicate (hits ty (listeners s)) (fade_timers s)))
           (storage s) (requests s) (exceptions s)
           (invocations s + hits ty (listeners s)).
Proof. apply dispatch_fold. Qed.

Lemma elem_of_fade_timers t s :
  t ∈ fade_timers s ↔ ∃ f, t = mkTimer (clock s + 3000) (FadeOut f) ∧ f ∈ flashes (document s).
Proof. unfold fade_timers. apply list_elem_of_fmap. Qed.

Lemma boot_eq d :
  boot d = mkHost d 0 [("DOMContentLoaded", OnReady)]
                  ((λ f, mkTimer 3000 (FadeOut f)) <$> flashes d)
                  ∅ [] ∅ 1.
Proof.
  unfold boot. rewrite dispatchEvent_eq. simpl.
  rewrite app_nil_r. reflexivity.
Qed.

(** ** Traces *)

Lemma run_snoc tr a s : run (tr ++ [a]) s = perform (run tr s) a.
Proof. unfold run. by rewrite foldl_app. Qed.

Lemma run_app tr1 tr2 s : run (tr1 ++ tr2) s = run tr2 (run tr1 s).
Proof. unfold run. by rewrite foldl_app. Qed.

Lemma elapsed_app tr1 tr2 : elapsed (tr1 ++ tr2) = elapsed tr1 + elapsed tr2.
Proof.
  induction tr1 as [|[] tr1 IH]; simpl; try done. fold (elapsed (tr1 ++ tr2)).
  fold (elapsed tr1). lia.
Qed.

Lemma page_action_host a s :
  page_action a →
  clock (perform s a) = clock s ∧ listeners (perform s a) = listeners s
  ∧ timers (perform s a) = timers s ∧ storage (perform s a) = storage s
  ∧ requests (perform s a) = requests s ∧ uncaught (perform s a) = uncaught s
  ∧ invocations (perform s a) = invocations s.
Proof. by destruct a. Qed.

Lemma insertElement_lookup h' e d h :
  nodes (insertElement h' e d) !! h
  = if decide (h = h' ∧ nodes d !! h' = None) then Some e else nodes d !! h.
Proof.
  unfold insertElement. destruct (nodes d !! h') as [e'|] eqn:Hh'; simpl.
  - rewrite decide_False; [done|]. by intros [_ [=]].
  - destruct (decide (h = h')) as [->|Hne].
    + rewrite decide_True by done. apply lookup_insert_eq.
    + rewrite decide_False by tauto. by apply lookup_insert_ne.
Qed.

Lemma classList_add_lookup h' c d h :
  nodes (classList_add h' c d) !! h
  = if decide (h = h') then add_class c <$> nodes d !! h else nodes d !! h.
Proof.
  unfold classList_add; simpl. rewrite lookup_alter.
  destruct (decide (h' = h)) as [->|Hne].
  - by rewrite decide_True.
  - rewrite decide_False; [done|]. congruence.
Qed.

(** The page never rewrites the inline style of an element that exists. *)
Lemma page_action_style a s h :
  page_action a → is_Some (nodes (document s) !! h) →
  style <$> nodes (document (perform s a)) !! h
  = style <$> nodes (document s) !! h.
Proof.
  intros Ha [e He].
  destruct a as [| |h'|h' e'|h' c]; try done; unfold perform, with_document;
    cbn [document].
  - rewrite insertElement_lookup. rewrite decide_False; [done|].
    intros [-> Hn]. congruence.
  - rewrite classList_add_lookup. case_decide; [|done].
    by rewrite He.
Qed.

Lemma page_action_is_Some a s h :
  page_action a → is_Some (nodes (document s) !! h) →
  is_Some (nodes (document (perform s a)) !! h).
Proof.
  intros Ha Hs. apply (fmap_is_Some style).
  rewrite page_action_style by done. by apply fmap_is_Some.
Qed.

Lemma style_of_alt h p s :
  style_of h p s
  = (style <$> nodes (document s) !! h) ≫= (λ o, st ← o; st !! p).
Proof. unfold style_of. by destruct (nodes (document s) !! h). Qed.

Lemma styled_alt d h :
  styled d h ↔ ∃ st, style <$> nodes d !! h = Some (Some st).
Proof.
  unfold styled. destruct (nodes d !! h) as [e|]; simpl.
  - split; [intros [st ->]; eauto|intros [st [= ->]]; eauto].
  - split; [by intros [? [=]]|by intros [? [=]]].
Qed.

Lemma styled_is_Some d h : styled d h → is_Some (nodes d !! h).
Proof. unfold styled. destruct (nodes d !! h); [eauto|by intros [? [=]]]. Qed.

Lemma page_action_styled a s h :
  page_action a → styled (document s) h → styled (document (perform s a)) h.
Proof.
  intros Ha Hs. apply styled_alt. rewrite page_action_style; [|done|].
  - by apply styled_alt.
  - by apply styled_is_Some.
Qed.

(** Fields no action ever touches, and the clock. *)
Lemma perform_frame s a :
  listeners (perform s a) = listeners s
  ∧ storage (perform s a) = storage s
  ∧ requests (perform s a) = requests s
  ∧ clock (perform s a) = clock s + elapsed [a].
Proof.
  destruct a as [ty|dt| | |]; simpl; rewrite ?N.add_0_r; try done.
  - by rewrite dispatchEvent_eq.
  - destruct (elapse_frame dt s) as (_ & -> & -> & _ & -> & -> & _). done.
Qed.

Lemma run_frame tr s :
  listeners (run tr s) = listeners s
  ∧ storage (run tr s) = storage s
  ∧ requests (run tr s) = requests s
  ∧ clock (run tr s) = clock s + elapsed tr.
Proof.
  induction tr as [|a tr IH] using rev_ind.
  - simpl. by rewrite N.add_0_r.
  - rewrite run_snoc, elapsed_app.
    destruct (perform_frame (run tr s) a) as (-> & -> & -> & ->).
    destruct IH as (-> & -> & -> & ->). repeat split; lia.
Qed.

Lemma boot_clock d tr : clock (run tr (boot d)) = elapsed tr.
Proof. destruct (run_frame tr (boot d)) as (_ & _ & _ & ->). by rewrite boot_eq. Qed.

Lemma boot_listeners d tr :
  listeners (run tr (boot d)) = [("DOMContentLoaded", OnReady)].
Proof. destruct (run_frame tr (boot d)) as (-> & _). by rewrite boot_eq. Qed.

(** ** Pending timers capture live elements *)

Lemma filter_none {A} (P : A → Prop) `{!∀ x, Decision (P x)} (l : list A) :
  (∀ x, x ∈ l → ¬ P x) → filter P l = [].
Proof.
  intros Hl. apply elem_of_nil_inv. intros x Hx.
  apply list_elem_of_filter in Hx as [HP Hx]. by apply (Hl x).
Qed.

Lemma new_timers_spec ty s t :
  t ∈ mjoin (replicate (hits ty (listeners s)) (fade_timers s)) →
  due t = clock s + 3000 ∧ target t ∈ flashes (document s).
Proof.
  intros (l & Ht & Hl)%list_elem_of_join.
  apply elem_of_replicate in Hl as [-> _].
  apply elem_of_fade_timers in Ht as (f & -> & Hf). done.
Qed.

Lemma sound_perform s a : sound s → sound (perform s a).
Proof.
  intros Ht. destruct a as [ty|dt|h|h e|h c].
  - simpl. rewrite dispatchEvent_eq. unfold sound. simpl.
    intros t [Hin|Hin]%elem_of_app; [by apply Ht|].
    apply new_timers_spec in Hin as [Hd Hf]. split; [lia|].
    apply elem_of_flashes in Hf as (_ & e & -> & _). eauto.
  - unfold perform, sound.
    destruct (elapse_frame dt s) as (_ & _ & _ & HT & _).
    rewrite HT. intros t [_ Hin]%list_elem_of_filter.
    destruct (Ht t Hin) as [Hd Hs]. split; [done|].
    rewrite elapse_lookup. case_decide; [|done]. by apply fmap_is_Some.
  - destruct (page_action_host (RemoveChild h) s I) as (_ & _ & HT & _).
    unfold sound. rewrite HT. intros t Hin.
    destruct (Ht t Hin). split; [done|]. by apply page_action_is_Some.
  - destruct (page_action_host (InsertElement h e) s I) as (_ & _ & HT & _).
    unfold sound. rewrite HT. intros t Hin.
    destruct (Ht t Hin). split; [done|]. by apply page_action_is_Some.
  - destruct (page_action_host (ClassAdd h c) s I) as (_ & _ & HT & _).
    unfold sound. rewrite HT. intros t Hin.
    destruct (Ht t Hin). split; [done|]. by apply page_action_is_Some.
Qed.

Lemma sound_run tr s : sound s → sound (run tr s).
Proof.
  revert s. induction tr as [|a tr IH]; intros s Hs; [done|].
  simpl. apply IH. by apply sound_perform.
Qed.

Lemma sound_boot d : sound (boot d).
Proof.
  rewrite boot_eq. unfold sound. simpl.
  intros t (f & -> & Hf)%list_elem_of_fmap. split; [done|].
  apply elem_of_flashes in Hf as (_ & e & He & _). simpl. eauto.
Qed.

(** ** Where exceptions come from *)

Lemma unstyled_not_styled d h :
  style <$> nodes d !! h = Some None → ¬ styled d h.
Proof. intros Hn [st Hs]%styled_alt. congruence. Qed.

Lemma not_styled_unstyled d h :
  is_Some (nodes d !! h) → ¬ styled d h → style <$> nodes d !! h = Some None.
Proof.
  intros [e He] Hn. rewrite He. simpl. destruct (style e) as [st|] eqn:E; [|done].
  destruct Hn. unfold styled. rewrite He. simpl. eauto.
Qed.

Lemma unstyled_elapse dt s h :
  style <$> nodes (document s) !! h = Some None →
  style <$> nodes (document (elapse dt s)) !! h = Some None.
Proof.
  intros Hn. rewrite elapse_lookup. case_decide; [|done].
  destruct (nodes (document s) !! h) as [e|]; simpl in *; [|done].
  injection Hn as Hn. by rewrite Hn.
Qed.

Lemma blameless_perform s a : sound s → blameless s → blameless (perform s a).
Proof.
  intros Ht Hb. destruct a as [ty|dt|h|h e|h c].
  - simpl. rewrite dispatchEvent_eq. done.
  - unfold perform, blameless. rewrite elapse_exceptions.
    intros x [Hx|Hx]%gmultiset_elem_of_disj_union.
    + destruct (Hb x Hx) as (g & -> & Hg). exists g.
      split; [done|]. by apply unstyled_elapse.
    + apply elem_of_list_to_set_disj, list_elem_of_fmap in Hx
        as (t & -> & [Hn [_ Hin]%list_elem_of_filter]%list_elem_of_filter).
      exists (target t). split; [done|]. apply unstyled_elapse.
      apply not_styled_unstyled; [|done]. by apply Ht.
  - intros x Hx. destruct (Hb x Hx) as (g & -> & Hg). exists g.
    split; [done|]. rewrite page_action_style; [done..|].
    apply (fmap_is_Some style). by rewrite Hg.
  - intros x Hx. destruct (Hb x Hx) as (g & -> & Hg). exists g.
    split; [done|]. rewrite page_action_style; [done..|].
    apply (fmap_is_Some style). by rewrite Hg.
  - intros x Hx. destruct (Hb x Hx) as (g & -> & Hg). exists g.
    split; [done|]. rewrite page_action_style; [done..|].
    apply (fmap_is_Some style). by rewrite Hg.
Qed.

Lemma blameless_run tr s : sound s → blameless s → blameless (run tr s).
Proof.
  revert s. induction tr as [|a tr IH]; intros s Hs Hb; [done|].
  simpl. apply IH; [by apply sound_perform|by apply blameless_perform].
Qed.

Lemma blameless_boot d : blameless (boot d).
Proof.
  rewrite boot_eq. intros x Hx. simpl in Hx.
  by apply gmultiset_elem_of_empty in Hx.
Qed.

(** ** The fade happens once the delay is over *)

Lemma style_of_page_action a s h p :
  page_action a → is_Some (nodes (document s) !! h) →
  style_of h p (perform s a) = style_of h p s.
Proof. intros Ha Hs. by rewrite !style_of_alt, page_action_style. Qed.

Lemma style_of_faded (o : option Element) h s :
  nodes (document s) !! h = set_style "opacity" "0" <$> o →
  is_Some (o ≫= style) →
  style_of h "opacity" s = Some "0".
Proof.
  intros Hn [st Hst]. destruct o as [e|]; [|done]. simpl in Hst.
  unfold style_of. rewrite Hn. simpl. rewrite Hst. simpl.
  apply lookup_insert_eq.
Qed.

Lemma styled_elapse dt s h :
  styled (document (elapse dt s)) h ↔ styled (document s) h.
Proof. unfold elapse. cbv zeta. by rewrite styled_run_timers. Qed.

Lemma style_of_styled h p v s :
  style_of h p s = Some v → styled (document s) h.
Proof.
  unfold style_of, styled. destruct (nodes (document s) !! h) as [e|]; [|done].
  simpl. destruct (style e); [eauto|done].
Qed.

Lemma style_of_elapse dt s h p :
  style_of h p (elapse dt s) = style_of h p s
  ∨ (h ∈ target <$> ready (clock s + dt) (timers s)
     ∧ nodes (document (elapse dt s)) !! h
       = set_style "opacity" "0" <$> nodes (document s) !! h).
Proof.
  pose proof (elapse_lookup dt s h) as Hl. case_decide.
  - by right.
  - left. unfold style_of. by rewrite Hl.
Qed.

Lemma fading_boot d f : f ∈ flashes d → styled d f → fading f (boot d).
Proof.
  intros Hf Hs. rewrite boot_eq. split; simpl; [done|].
  left. split; [done|]. by apply (list_elem_of_fmap_2 (λ f, mkTimer 3000 (FadeOut f))).
Qed.

Lemma fading_perform f s a : fading f s → fading f (perform s a).
Proof.
  intros [Hs Hc].
  destruct a as [ty|dt|h|h e|h c].
  - simpl. rewrite dispatchEvent_eq. split; [done|].
    destruct Hc as [[Hlt Hin]|Hz]; [left|by right].
    split; [done|]. simpl. apply elem_of_app. by left.
  - simpl. destruct (elapse_frame dt s) as (_ & HC & _ & HT & _).
    split; [by apply styled_elapse|].
    destruct Hc as [[Hlt Hin]|Hz].
    + destruct (decide (3000 ≤ clock s + dt)) as [Hge|Hlt'].
      * right. apply (style_of_faded (nodes (document s) !! f)); [|done].
        rewrite elapse_lookup, decide_True; [done|].
        apply (list_elem_of_fmap_2' _ _ (mkTimer 3000 (FadeOut f))); [|done].
        apply list_elem_of_filter. by split.
      * left. rewrite HC, HT. split; [lia|].
        apply list_elem_of_filter. split; [simpl; lia|done].
    + right. destruct (style_of_elapse dt s f "opacity") as [->|[_ Hn]]; [done|].
      by apply (style_of_faded (nodes (document s) !! f)).
  - destruct (page_action_host (RemoveChild h) s I) as (HC & _ & HT & _).
    split; [by apply page_action_styled|].
    rewrite HC, HT, style_of_page_action; [done|done|by apply styled_is_Some].
  - destruct (page_action_host (InsertElement h e) s I) as (HC & _ & HT & _).
    split; [by apply page_action_styled|].
    rewrite HC, HT, style_of_page_action; [done|done|by apply styled_is_Some].
  - destruct (page_action_host (ClassAdd h c) s I) as (HC & _ & HT & _).
    split; [by apply page_action_styled|].
    rewrite HC, HT, style_of_page_action; [done|done|by apply styled_is_Some].
Qed.

Lemma fading_run f tr s : fading f s → fading f (run tr s).
Proof.
  revert s. induction tr as [|a tr IH]; intros s Hs; [done|].
  simpl. apply IH. by apply fading_perform.
Qed.

(** ** Nothing happens before the delay is over *)

Lemma ready_early now (ts : list Timer) :
  (∀ t, t ∈ ts → 3000 ≤ due t) → now < 3000 → ready now ts = [].
Proof.
  intros Hts Hnow. apply filter_none. intros t Hin Hd.
  specialize (Hts t Hin). lia.
Qed.

Lemma early_styles d h tr :
  is_Some (nodes d !! h) → elapsed tr < 3000 →
  style <$> nodes (document (run tr (boot d))) !! h = style <$> nodes d !! h.
Proof.
  intros Hh. induction tr as [|a tr IH] using rev_ind; intros He.
  - by rewrite boot_eq.
  - rewrite elapsed_app in He. rewrite run_snoc.
    assert (Hlt : elapsed tr < 3000) by lia. specialize (IH Hlt).
    assert (Hs : is_Some (nodes (document (run tr (boot d))) !! h)).
    { apply (fmap_is_Some style). rewrite IH. by apply fmap_is_Some. }
    rewrite <- IH.
    destruct a as [ty|dt|h'|h' e|h' c];
      try (by apply page_action_style).
    + simpl. by rewrite dispatchEvent_eq.
    + simpl. rewrite elapse_lookup, ready_early; [done| |].
      * intros t Hin. by apply (sound_run tr (boot d) (sound_boot d)).
      * rewrite boot_clock. simpl in He. lia.
Qed.

(** ** The page with and without the script *)

Lemma plain_dispatch ty s : plain s → dispatchEvent ty s = s.
Proof. intros [Hl _]. unfold dispatchEvent. by rewrite Hl. Qed.

Lemma plain_elapse dt s :
  plain s → document (elapse dt s) = document s ∧ plain (elapse dt s).
Proof.
  intros [Hl Ht]. unfold elapse, plain. rewrite Ht. simpl. by rewrite Hl.
Qed.

Lemma plain_perform s a : plain s → plain (perform s a).
Proof.
  intros Hp. destruct a; try done; simpl.
  - by rewrite plain_dispatch.
  - by apply plain_elapse.
Qed.

Lemma plain_run tr s : plain s → plain (run tr s).
Proof.
  revert s. induction tr as [|a tr IH]; intros s Hs; [done|].
  simpl. apply IH. by apply plain_perform.
Qed.

Lemma add_class_set_style c p v e :
  add_class c (set_style p v e) = set_style p v (add_class c e).
Proof. done. Qed.

Lemma hits_other ty :
  ty ≠ "DOMContentLoaded" → hits ty [("DOMContentLoaded", OnReady)] = 0%nat.
Proof.
  intros Hne. unfold hits. rewrite filter_cons_False; [done|].
  simpl. congruence.
Qed.

Lemma dispatch_other ty s :
  ty ≠ "DOMContentLoaded" →
  listeners s = [("DOMContentLoaded", OnReady)] →
  dispatchEvent ty s = s.
Proof.
  intros Hne Hl. rewrite dispatchEvent_eq, Hl, hits_other by done.
  simpl. rewrite app_nil_r, Nat.add_0_r, <- Hl. by destruct s.
Qed.

Lemma mirrors_perform F s s0 a :
  a ≠ Dispatch "DOMContentLoaded" →
  listeners s = [("DOMContentLoaded", OnReady)] → plain s0 →
  mirrors F s s0 → mirrors F (perform s a) (perform s0 a).
Proof.
  intros Ha Hl Hp (Htree & Htim & Hn).
  destruct a as [ty|dt|h|h e|h c].
  - simpl. rewrite dispatch_other, plain_dispatch by (done || congruence).
    by repeat split.
  - unfold perform, mirrors.
    destruct (elapse_frame dt s) as (HT & _ & _ & HQ & _).
    destruct (plain_elapse dt s0 Hp) as [Hd0 _].
    rewrite Hd0. split; [congruence|]. split.
    + rewrite HQ. intros t [_ Hin]%list_elem_of_filter. by apply Htim.
    + intros h. rewrite elapse_lookup. case_decide as Hin; [|done].
      right. split.
      * apply list_elem_of_fmap in Hin as (t & -> & [_ Hin]%list_elem_of_filter).
        by apply Htim.
      * destruct (Hn h) as [->|[_ ->]]; [done|].
        destruct (nodes (document s0) !! h); simpl; [|done].
        by rewrite set_style_idemp.
  - unfold perform, with_document, mirrors; cbn [document timers].
    split; [simpl; congruence|]. split; [done|]. simpl. done.
  - unfold perform, with_document, mirrors; cbn [document timers].
    assert (Hnone : nodes (document s) !! h = None
                    ↔ nodes (document s0) !! h = None).
    { destruct (Hn h) as [->|[_ ->]]; [done|]. by rewrite fmap_None. }
    split; [|split; [done|]].
    + unfold insertElement. revert Hnone.
      destruct (nodes (document s) !! h) as [x|],
               (nodes (document s0) !! h) as [y|];
        simpl; intros [H1 H2]; try congruence.
      * discriminate (H2 eq_refl).
      * discriminate (H1 eq_refl).
    + intros h'. rewrite !insertElement_lookup.
      destruct (decide (h' = h ∧ nodes (document s) !! h = None)) as [[-> E]|Hd].
      * rewrite decide_True; [by left|]. split; [done|]. by apply Hnone.
      * rewrite decide_False; [apply Hn|]. rewrite <- Hnone. done.
  - unfold perform, with_document, mirrors; cbn [document timers].
    split; [done|]. split; [done|].
    intros h'. rewrite !classList_add_lookup. case_decide; [|apply Hn].
    destruct (Hn h') as [->|[HF ->]]; [by left|right].
    split; [done|]. by destruct (nodes (document s0) !! h').
Qed.

Lemma mirrors_boot d : mirrors (flashes d) (boot d) (page d).
Proof.
  rewrite boot_eq. split; [done|]. split; [|by left]. simpl.
  by intros t (f & -> & Hf)%list_elem_of_fmap.
Qed.

Lemma mirrors_run d tr :
  Dispatch "DOMContentLoaded" ∉ tr →
  mirrors (flashes d) (run tr (boot d)) (run tr (page d)).
Proof.
  induction tr as [|a tr IH] using rev_ind; intros Hn.
  - apply mirrors_boot.
  - rewrite !run_snoc. rewrite not_elem_of_app in Hn. destruct Hn as [Hn Ha].
    apply mirrors_perform; [| |by apply plain_run|by apply IH].
    + intros ->. apply Ha, list_elem_of_here.
    + apply boot_listeners.
Qed.

(** ** Detached elements stay detached *)

Lemma detached_perform f s a : detached f s → detached f (perform s a).
Proof.
  intros [Hs Ht]. destruct a as [ty|dt|h|h e|h c].
  - simpl. by rewrite dispatchEvent_eq.
  - unfold perform, detached. destruct (elapse_frame dt s) as (-> & _).
    split; [|done]. rewrite elapse_lookup. case_decide; [|done].
    by apply fmap_is_Some.
  - split; [by apply page_action_is_Some|]. simpl.
    intros [_ Hin]%list_elem_of_filter. done.
  - split; [by apply page_action_is_Some|]. simpl. unfold insertElement.
    destruct (nodes (document s) !! h) as [x|] eqn:E; [done|]. simpl.
    intros [Hin|Hin%list_elem_of_singleton]%elem_of_app; [done|].
    subst h. destruct Hs as [? Hs]. congruence.
  - split; [by apply page_action_is_Some|done].
Qed.

Lemma detached_run f tr s : detached f s → detached f (run tr s).
Proof.
  revert s. induction tr as [|a tr IH]; intros s Hs; [done|].
  simpl. apply IH. by apply detached_perform.
Qed.

Lemma removeChild_detached f s :
  is_Some (nodes (document s) !! f) → detached f (perform s (RemoveChild f)).
Proof.
  intros Hs. split; [done|]. simpl.
  intros [Hne _]%list_elem_of_filter. done.
Qed.

(** ** Counting calls of the listener *)

Lemma invocations_other s a :
  listeners s = [("DOMContentLoaded", OnReady)] →
  a ≠ Dispatch "DOMContentLoaded" →
  invocations (perform s a) = invocations s.
Proof.
  intros Hl Ha. destruct a as [ty|dt|h|h e|h c]; try done.
  - simpl. rewrite dispatch_other; [done| |done]. congruence.
  - simpl. by destruct (elapse_frame dt s) as (_ & _ & _ & _ & _ & _ & ->).
Qed.

Lemma invocations_ready s :
  listeners s = [("DOMContentLoaded", OnReady)] →
  invocations (perform s (Dispatch "DOMContentLoaded")) = S (invocations s).
Proof.
  intros Hl. simpl. rewrite dispatchEvent_eq, Hl.
  change (hits "DOMContentLoaded" [("DOMContentLoaded", OnReady)]) with 1%nat.
  simpl. lia.
Qed.

Lemma invocations_quiet tr s :
  listeners s = [("DOMContentLoaded", OnReady)] →
  Dispatch "DOMContentLoaded" ∉ tr →
  invocations (run tr s) = invocations s.
Proof.
  intros Hl. induction tr as [|a tr IH] using rev_ind; intros Hn; [done|].
  rewrite not_elem_of_app in Hn. destruct Hn as [Hn Ha].
  rewrite run_snoc, invocations_other, IH; [done..| |].
  - destruct (run_frame tr s) as (-> & _). done.
  - intros ->. apply Ha, list_elem_of_here.
Qed.

(** ** Slicing time *)

Lemma run_timers_with_timers x ts s :
  foldl run_timer (with_timers x s) ts = with_timers x (foldl run_timer s ts).
Proof.
  revert s. induction ts as [|t ts IH]; intros s; [done|]. simpl.
  rewrite <- IH. f_equal. unfold run_timer; simpl.
  by destruct (call (callback t) (document s)).
Qed.

Lemma run_timers_with_clock n ts s :
  foldl run_timer (with_clock n s) ts = with_clock n (foldl run_timer s ts).
Proof.
  revert s. induction ts as [|t ts IH]; intros s; [done|]. simpl.
  rewrite <- IH. f_equal. unfold run_timer; simpl.
  by destruct (call (callback t) (document s)).
Qed.

Lemma elapse_alt dt s :
  elapse dt s
  = with_timers (waiting (clock s + dt) (timers s))
      (with_clock (clock s + dt)
         (foldl run_timer s (ready (clock s + dt) (timers s)))).
Proof.
  unfold elapse. cbv zeta.
  by rewrite run_timers_with_timers, run_timers_with_clock.
Qed.

Lemma ready_split n1 n2 (ts : list Timer) :
  n1 ≤ n2 → ready n1 ts ++ ready n2 (waiting n1 ts) ≡ₚ ready n2 ts.
Proof.
  intros Hle. unfold ready, waiting.
  induction ts as [|t ts IH]; [done|].
  destruct (decide (due t ≤ n1)) as [H1|H1].
  - rewrite (filter_cons_True (λ t, due t ≤ n1)) by done.
    rewrite (filter_cons_False (λ t, n1 < due t)) by lia.
    rewrite (filter_cons_True (λ t, due t ≤ n2)) by lia.
    simpl. by rewrite IH.
  - rewrite (filter_cons_False (λ t, due t ≤ n1)) by done.
    rewrite (filter_cons_True (λ t, n1 < due t)) by lia.
    destruct (decide (due t ≤ n2)) as [H2|H2].
    + rewrite !(filter_cons_True (λ t, due t ≤ n2)) by done.
      rewrite <- Permutation_middle. by rewrite IH.
    + rewrite !(filter_cons_False (λ t, due t ≤ n2)) by done. apply IH.
Qed.

Lemma waiting_waiting n1 n2 (ts : list Timer) :
  n1 ≤ n2 → waiting n2 (waiting n1 ts) = waiting n2 ts.
Proof.
  intros Hle. unfold waiting. rewrite list_filter_filter.
  apply list_filter_iff. intros t. lia.
Qed.

Lemma elapse_elapse a b s : elapse a (elapse b s) = elapse (b + a) s.
Proof.
  rewrite (elapse_alt a), (elapse_alt (b + a)).
  destruct (elapse_frame b s) as (_ & -> & _ & -> & _).
  rewrite waiting_waiting by lia. rewrite N.add_assoc.
  rewrite <- (run_timers_permutation s _ _
                (ready_split (clock s + b) (clock s + b + a) (timers s)
                             ltac:(lia))).
  rewrite foldl_app. rewrite (elapse_alt b) at 1.
  rewrite run_timers_with_timers, run_timers_with_clock. reflexivity.
Qed.

Lemma run_schedule sched a s :
  run (Elapse <$> sched) (elapse a s) = elapse (a + total sched) s.
Proof.
  revert a. induction sched as [|x sched IH]; intros a; simpl.
  - by rewrite N.add_0_r.
  - rewrite elapse_elapse, IH. f_equal. unfold total. lia.
Qed.

Lemma filter_all {A} (P : A → Prop) `{!∀ x, Decision (P x)} (l : list A) :
  (∀ x, x ∈ l → P x) → filter P l = l.
Proof.
  induction l as [|x l IH]; intros Hl; [done|].
  rewrite filter_cons_True by apply Hl, list_elem_of_here.
  f_equal. apply IH. intros y Hy. by apply Hl, list_elem_of_further.
Qed.

Lemma boot_timers_due d t : t ∈ timers (boot d) → due t = 3000.
Proof. rewrite boot_eq. simpl. by intros (f & -> & _)%list_elem_of_fmap. Qed.

Lemma elapse_zero_boot d : elapse 0 (boot d) = boot d.
Proof.
  rewrite elapse_alt. rewrite N.add_0_r.
  unfold ready, waiting.
  rewrite (filter_none (λ t, due t ≤ clock (boot d))),
          (filter_all (λ t, clock (boot d) < due t)).
  - by destruct (boot d).
  - intros t Ht. rewrite (boot_timers_due d t Ht). rewrite boot_eq. simpl. lia.
  - intros t Ht. rewrite (boot_timers_due d t Ht). rewrite boot_eq. simpl. lia.
Qed.

Lemma run_schedule_boot d sched :
  run (Elapse <$> sched) (boot d) = elapse (total sched) (boot d).
Proof.
  rewrite <- (elapse_zero_boot d) at 1. by rewrite run_schedule, N.add_0_l.
Qed.

Lemma elapse_late_document d n :
  3000 ≤ n → document (elapse n (boot d)) = document (elapse 3000 (boot d)).
Proof.
  intros Hn. rewrite !elapse_alt. simpl.
  assert (Hr : ∀ m, 3000 ≤ m →
               ready (clock (boot d) + m) (timers (boot d)) = timers (boot d)).
  { intros m Hm. apply filter_all. intros t Ht.
    rewrite (boot_timers_due d t Ht). lia. }
  by rewrite !Hr.
Qed.

(** * Properties of the specification *)

(** ** C1 *)

(** C1, as stated, fails on the code: a matched element that has no [style]
    property gets its timer like any other, but the callback throws at
    [f.style.opacity] and writes nothing.  On the page [mixed] the foreign
    banner 4 matches [.flash] and has no opacity after the delay. *)
Lemma flash_without_style_is_not_faded :
  ¬ (∀ (d : Document) (f : handle) (tr : list Action),
       f ∈ flashes d → 3000 ≤ elapsed tr →
       mkTimer 3000 (FadeOut f) ∈ timers (boot d)
       ∧ style_of f "opacity" (run tr (boot d)) = Some "0").
Proof.
  intros H. destruct (H mixed 4%nat [Elapse 3000]) as [_ Hz].
  - in_list.
  - vm_compute. discriminate.
  - vm_compute in Hz. discriminate.
Qed.

(** C1, amended: every element that carries the class [flash], is attached
    when [DOMContentLoaded] fires and has a [style] property (as every HTML
    and SVG element has) gets a timer due 3000 ms after the trigger, and in
    every state the page reaches once 3000 ms or more have passed since the
    trigger the element's inline opacity is ["0"], whatever else the page
    did meanwhile (other events, detaching or inserting elements, adding
    classes). *)
Theorem flash_fades_after_delay (d : Document) (f : handle) (tr : list Action) :
  f ∈ flashes d → styled d f → 3000 ≤ elapsed tr →
  mkTimer 3000 (FadeOut f) ∈ timers (boot d)
  ∧ style_of f "opacity" (run tr (boot d)) = Some "0".
Proof.
  intros Hf Hs Ht. split.
  - rewrite boot_eq. simpl.
    by apply (list_elem_of_fmap_2 (λ f, mkTimer 3000 (FadeOut f))).
  - destruct (fading_run f tr (boot d) (fading_boot d f Hf Hs))
      as [_ [[Hlt _]|Hz]]; [|done].
    rewrite boot_clock in Hlt. lia.
Qed.

(** ** C2 *)

Lemma target_fade_timers s : target <$> fade_timers s = flashes (document s).
Proof.
  unfold fade_timers. rewrite <- list_fmap_compose.
  induction (flashes (document s)) as [|f fs IH]; [done|].
  rewrite fmap_cons. by f_equal.
Qed.

(** C2: when the document has exactly [n] attached elements with the class
    [flash], one call of the listener appends exactly [n] timers to the
    queue; the i-th new timer captures the i-th matched element, the
    captured elements are pairwise distinct, and every new timer is due
    3000 ms after the call. *)
Theorem on_ready_schedules_one_per_flash (s : Host) (n : nat) :
  NoDup (tree (document s)) → length (flashes (document s)) = n →
  ∃ new : list Timer,
    timers (on_ready s) = timers s ++ new
    ∧ length new = n
    ∧ target <$> new = flashes (document s)
    ∧ NoDup (target <$> new)
    ∧ Forall (λ t, due t = clock s + 3000) new.
Proof.
  intros Hnd Hlen. exists (fade_timers s). rewrite on_ready_eq. simpl.
  split; [done|]. rewrite target_fade_timers. split; [|split; [done|split]].
  - unfold fade_timers. by rewrite length_fmap.
  - unfold flashes, select. by apply NoDup_filter.
  - apply Forall_forall. by intros t (f & -> & _)%elem_of_fade_timers.
Qed.

(** ** C3 *)

Lemma plain_quiet_document tr s :
  plain s → (∀ a, a ∈ tr → ¬ page_action a) → document (run tr s) = document s.
Proof.
  revert s. induction tr as [|a tr IH]; intros s Hp Hq; [done|].
  simpl. rewrite IH.
  - assert (Ha : ¬ page_action a) by apply Hq, list_elem_of_here.
    destruct a as [ty|dt| | |]; simpl in *; try tauto.
    + by rewrite plain_dispatch.
    + by apply plain_elapse.
  - by apply plain_perform.
  - intros b Hb. by apply Hq, list_elem_of_further.
Qed.

(** C3: compare the page running the script with the same page, going
    through the same events, without it.  The tree, the class lists, every
    style property other than [opacity], and every element that did not
    match [.flash] at the trigger are the same in both; storage and the
    network log are what they were before the script ran.  (When only time
    passes, the page without the script still shows the initial document.)
    The script has no result: [script] and [on_ready] only transform the
    host state. *)
Theorem script_frame (d : Document) (tr : list Action) :
  Dispatch "DOMContentLoaded" ∉ tr →
  let s := run tr (boot d) in
  let s0 := run tr (page d) in
  tree (document s) = tree (document s0)
  ∧ storage s = storage (page d)
  ∧ requests s = requests (page d)
  ∧ (∀ h, h ∉ flashes d → nodes (document s) !! h = nodes (document s0) !! h)
  ∧ (∀ h p, p ≠ "opacity" → style_of h p s = style_of h p s0)
  ∧ (∀ h, classList <$> nodes (document s) !! h
          = classList <$> nodes (document s0) !! h)
  ∧ ((∀ a, a ∈ tr → ¬ page_action a) → document s0 = d).
Proof.
  intros Hq. cbv zeta. destruct (mirrors_run d tr Hq) as (Htree & _ & Hn).
  destruct (run_frame tr (boot d)) as (_ & HS & HR & _).
  split; [done|]. split; [by rewrite HS, boot_eq|].
  split; [by rewrite HR, boot_eq|]. repeat split.
  - intros h Hh. destruct (Hn h) as [E|[HF _]]; [done|contradiction].
  - intros h p Hp. unfold style_of.
    destruct (Hn h) as [->|[_ ->]]; [done|].
    destruct (nodes (document (run tr (page d))) !! h) as [e|]; simpl; [|done].
    destruct (style e) as [st|]; simpl; [|done].
    by apply lookup_insert_ne.
  - intros h. destruct (Hn h) as [->|[_ ->]]; [done|].
    by destruct (nodes (document (run tr (page d))) !! h).
  - intros Hpa. by apply (plain_quiet_document tr (page d)).
Qed.

(** ** C4 *)

(** C4: on a document without any attached [flash] element the listener
    changes nothing but the count of its own calls: no timer is registered,
    the document stays as it was however much time passes, and no exception
    reaches the event loop. *)
Theorem no_flash_no_action (d : Document) :
  flashes d = [] →
  (∀ s, document s = d → on_ready s = enter_listener s)
  ∧ timers (boot d) = []
  ∧ document (boot d) = d
  ∧ uncaught (boot d) = 0%nat
  ∧ ∀ dt, document (elapse dt (boot d)) = d
          ∧ timers (elapse dt (boot d)) = []
          ∧ uncaught (elapse dt (boot d)) = 0%nat.
Proof.
  intros Hd. split.
  { intros s <-. rewrite on_ready_eq, Hd. simpl. rewrite app_nil_r.
    by destruct s. }
  rewrite boot_eq, Hd. simpl. repeat split; done.
Qed.

(** ** C5 *)

(** C5, as stated, fails on the code: when the matched element has no
    [style] property its callback throws, whether the element was detached
    or not.  On the page [mixed], detaching the foreign banner 4 and
    waiting leaves one uncaught exception. *)
Lemma removed_flash_without_style_throws :
  ¬ (∀ (d : Document) (f : handle) (tr1 tr2 : list Action),
       f ∈ flashes d → elapsed tr1 < 3000 →
       uncaught (run (tr1 ++ [RemoveChild f] ++ tr2) (boot d)) = 0%nat).
Proof.
  intros H. specialize (H mixed 4%nat [Elapse 1000] [Elapse 2000]).
  assert (E : uncaught (run ([Elapse 1000] ++ [RemoveChild 4] ++ [Elapse 2000])
                            (boot mixed)) = 1%nat) by (vm_compute; reflexivity).
  rewrite H in E; [discriminate| |].
  - in_list.
  - vm_compute. reflexivity.
Qed.

(** C5, amended: a matched element that has a [style] property and that
    the page detaches before the delay is over stays detached; its callback
    throws nothing (every exception on record is the [TypeError] of a
    callback whose own element has no [style]), and once the delay is over
    the detached element carries opacity ["0"]. *)
Theorem removed_flash_is_harmless (d : Document) (f : handle)
    (tr1 tr2 : list Action) :
  f ∈ flashes d → styled d f → elapsed tr1 < 3000 →
  let s := run (tr1 ++ [RemoveChild f] ++ tr2) (boot d) in
  (TypeError f ∉ exceptions s)
  ∧ (∀ x, x ∈ exceptions s →
          ∃ g, x = TypeError g
               ∧ style <$> nodes (document s) !! g = Some None)
  ∧ (f ∉ tree (document s))
  ∧ (3000 ≤ elapsed tr1 + elapsed tr2 → style_of f "opacity" s = Some "0").
Proof.
  intros Hf Hst Hlt. cbv zeta.
  assert (Hb : blameless (run (tr1 ++ [RemoveChild f] ++ tr2) (boot d))).
  { apply blameless_run; [apply sound_boot|apply blameless_boot]. }
  destruct (fading_run f (tr1 ++ [RemoveChild f] ++ tr2) (boot d)
              (fading_boot d f Hf Hst)) as [Hs Hc].
  split; [|split; [done|split]].
  - intros Hx. destruct (Hb _ Hx) as (g & [= <-] & Hg).
    by apply (unstyled_not_styled _ _ Hg).
  - rewrite !run_app. apply detached_run. apply (removeChild_detached f).
    apply styled_is_Some.
    by destruct (fading_run f tr1 (boot d) (fading_boot d f Hf Hst)).
  - intros Hge. destruct Hc as [[Hc _]|Hz]; [|done].
    rewrite boot_clock, !elapsed_app in Hc. simpl in Hc. lia.
Qed.

(** ** C6 *)

(** C6: immediately after the trigger, and in every state the page reaches
    while less than 3000 ms have passed since the trigger, the inline
    opacity (indeed the whole inline style) of a matched element is the one
    it had when the page was loaded. *)
Theorem no_fade_before_delay (d : Document) (f : handle) (tr : list Action) :
  f ∈ flashes d → elapsed tr < 3000 →
  style_of f "opacity" (boot d) = style_of f "opacity" (page d)
  ∧ style_of f "opacity" (run tr (boot d)) = style_of f "opacity" (page d)
  ∧ style <$> nodes (document (run tr (boot d))) !! f = style <$> nodes d !! f.
Proof.
  intros Hf Hlt.
  assert (Hs : is_Some (nodes d !! f)).
  { apply elem_of_flashes in Hf as (_ & e & -> & _). eauto. }
  split; [by rewrite boot_eq|]. split; [|by apply early_styles].
  rewrite !style_of_alt. by rewrite early_styles.
Qed.

(** ** C7 *)

(** C7: evaluating the script does not run the listener; the listener runs
    when [DOMContentLoaded] is dispatched, once for that dispatch; no other
    event, no passing of time and no change of the document runs it again.
    The browser dispatches [DOMContentLoaded] once per page load, which is
    the assumption on the two traces. *)
Theorem handler_runs_once (d : Document) (tr1 tr2 : list Action) :
  Dispatch "DOMContentLoaded" ∉ tr1 → Dispatch "DOMContentLoaded" ∉ tr2 →
  invocations (run tr1 (script (page d))) = 0%nat
  ∧ invocations (run (tr1 ++ [Dispatch "DOMContentLoaded"]) (script (page d)))
    = 1%nat
  ∧ invocations (run (tr1 ++ [Dispatch "DOMContentLoaded"] ++ tr2)
                     (script (page d))) = 1%nat.
Proof.
  intros H1 H2.
  assert (Hl : ∀ tr, listeners (run tr (script (page d)))
                     = [("DOMContentLoaded", OnReady)]).
  { intros tr. by destruct (run_frame tr (script (page d))) as (-> & _). }
  assert (E1 : invocations (run tr1 (script (page d))) = 0%nat).
  { by rewrite invocations_quiet. }
  assert (E2 : invocations (run (tr1 ++ [Dispatch "DOMContentLoaded"])
                                (script (page d))) = 1%nat).
  { by rewrite run_snoc, invocations_ready, E1. }
  split; [done|]. split; [done|].
  rewrite app_assoc, run_app, invocations_quiet; [done|apply Hl|done].
Qed.

(** ** C8 *)

(** C8: a callback changes no element but the one it captured, two
    callbacks commute, and running the timers registered at the trigger in
    any order leaves the document that the host's own order produces. *)
Theorem deferred_actions_commute (d : Document) (order : list Timer) :
  order ≡ₚ timers (boot d) →
  (∀ s t h, h ≠ target t →
            nodes (document (run_timer s t)) !! h = nodes (document s) !! h)
  ∧ (∀ s t1 t2, run_timer (run_timer s t1) t2 = run_timer (run_timer s t2) t1)
  ∧ document (foldl run_timer (boot d) order) = document (elapse 3000 (boot d)).
Proof.
  intros Hp. split; [|split].
  - intros s t h Hne. by rewrite run_timer_lookup, decide_False.
  - intros s t1 t2.
    apply (run_timers_permutation s [t1; t2] [t2; t1]), Permutation_swap.
  - rewrite (run_timers_permutation _ _ _ Hp), elapse_alt. simpl.
    unfold ready. rewrite filter_all; [done|].
    intros t Ht. rewrite (boot_timers_due d t Ht). rewrite boot_eq. simpl. lia.
Qed.

(** ** C9 *)

(** C9: an element that did not match [.flash] when the event fired (it had
    no such class yet, or was not yet in the document) is captured by no
    pending timer in any later state, and is in every later state exactly
    what it is on the same page without the script, even after it acquired
    the class or was inserted.  The browser does not dispatch
    [DOMContentLoaded] again. *)
Theorem late_flash_not_faded (d : Document) (f : handle) (tr : list Action) :
  f ∉ flashes d → Dispatch "DOMContentLoaded" ∉ tr →
  (f ∉ target <$> timers (run tr (boot d)))
  ∧ nodes (document (run tr (boot d))) !! f
    = nodes (document (run tr (page d))) !! f.
Proof.
  intros Hf Hq. destruct (mirrors_run d tr Hq) as (_ & Ht & Hn). split.
  - intros (t & -> & Hin)%list_elem_of_fmap. by apply Hf, Ht.
  - destruct (Hn f) as [E|[HF _]]; [done|contradiction].
Qed.

(** ** C10 *)

(** C10: the state after the page load is a function of the initial
    document alone, and the outcome does not depend on how the host slices
    time: two runs over the same document that let the same amount of time
    pass, or that both let the delay pass, end with the same document. *)
Theorem fade_is_deterministic (d : Document) (sched1 sched2 : list N) :
  total sched1 = total sched2 ∨ (3000 ≤ total sched1 ∧ 3000 ≤ total sched2) →
  document (run (Elapse <$> sched1) (boot d))
  = document (run (Elapse <$> sched2) (boot d)).
Proof.
  rewrite !run_schedule_boot. intros [->|[H1 H2]]; [done|].
  by rewrite (elapse_late_document d _ H1), (elapse_late_document d _ H2).
Qed.

(** * Instances on the concrete page *)

Lemma flash_fades_after_delay_witness :
  mkTimer 3000 (FadeOut 3) ∈ timers (boot demo)
  ∧ style_of 3 "opacity"
      (run [Elapse 1000; ClassAdd 2 "flash"; Elapse 2500] (boot demo))
    = Some "0".
Proof.
  apply (flash_fades_after_delay demo 3%nat
           [Elapse 1000; ClassAdd 2 "flash"; Elapse 2500]).
  - in_list.
  - vm_compute. eauto.
  - vm_compute. discriminate.
Defined.

Lemma on_ready_schedules_one_per_flash_witness :
  ∃ new : list Timer,
    timers (on_ready (script (page demo))) = timers (script (page demo)) ++ new
    ∧ length new = 2%nat
    ∧ target <$> new = flashes (document (script (page demo)))
    ∧ NoDup (target <$> new)
    ∧ Forall (λ t, due t = clock (script (page demo)) + 3000) new.
Proof.
  apply (on_ready_schedules_one_per_flash (script (page demo)) 2).
  - apply (bool_decide_unpack _). vm_compute. exact I.
  - reflexivity.
Defined.

Lemma no_flash_no_action_witness :
  (∀ s, document s = quiet_page → on_ready s = enter_listener s)
  ∧ timers (boot quiet_page) = []
  ∧ document (boot quiet_page) = quiet_page
  ∧ uncaught (boot quiet_page) = 0%nat
  ∧ ∀ dt, document (elapse dt (boot quiet_page)) = quiet_page
          ∧ timers (elapse dt (boot quiet_page)) = []
          ∧ uncaught (elapse dt (boot quiet_page)) = 0%nat.
Proof. apply (no_flash_no_action quiet_page). reflexivity. Defined.

Lemma script_frame_witness :
  let tr := [Elapse 1000; ClassAdd 2 "flash"; RemoveChild 1; Dispatch "load";
             Elapse 2500] in
  let s := run tr (boot demo) in
  let s0 := run tr (page demo) in
  tree (document s) = tree (document s0)
  ∧ storage s = storage (page demo)
  ∧ requests s = requests (page demo)
  ∧ (∀ h, h ∉ flashes demo → nodes (document s) !! h = nodes (document s0) !! h)
  ∧ (∀ h p, p ≠ "opacity" → style_of h p s = style_of h p s0)
  ∧ (∀ h, classList <$> nodes (document s) !! h
          = classList <$> nodes (document s0) !! h)
  ∧ ((∀ a, a ∈ tr → ¬ page_action a) → document s0 = demo).
Proof.
  apply (script_frame demo
           [Elapse 1000; ClassAdd 2 "flash"; RemoveChild 1; Dispatch "load";
            Elapse 2500]).
  not_ready.
Defined.

Lemma removed_flash_is_harmless_witness :
  let s := run ([Elapse 1000] ++ [RemoveChild 1] ++ [Elapse 2000]) (boot mixed) in
  (TypeError 1 ∉ exceptions s)
  ∧ (∀ x, x ∈ exceptions s →
          ∃ g, x = TypeError g
               ∧ style <$> nodes (document s) !! g = Some None)
  ∧ (1%nat ∉ tree (document s))
  ∧ (3000 ≤ elapsed [Elapse 1000] + elapsed [Elapse 2000] →
     style_of 1 "opacity" s = Some "0").
Proof.
  apply (removed_flash_is_harmless mixed 1%nat [Elapse 1000] [Elapse 2000]).
  - in_list.
  - vm_compute. eauto.
  - vm_compute. reflexivity.
Defined.

Lemma no_fade_before_delay_witness :
  style_of 3 "opacity" (boot demo) = style_of 3 "opacity" (page demo)
  ∧ style_of 3 "opacity" (run [Elapse 2000; Dispatch "load"; Elapse 999] (boot demo))
    = style_of 3 "opacity" (page demo)
  ∧ style <$> nodes (document (run [Elapse 2000; Dispatch "load"; Elapse 999]
                                   (boot demo))) !! 3%nat
    = style <$> nodes demo !! 3%nat.
Proof.
  apply (no_fade_before_delay demo 3%nat
           [Elapse 2000; Dispatch "load"; Elapse 999]).
  - in_list.
  - vm_compute. reflexivity.
Defined.

Lemma handler_runs_once_witness :
  invocations (run [Dispatch "readystatechange"; Elapse 5] (script (page demo)))
  = 0%nat
  ∧ invocations (run ([Dispatch "readystatechange"; Elapse 5]
                      ++ [Dispatch "DOMContentLoaded"]) (script (page demo)))
    = 1%nat
  ∧ invocations (run ([Dispatch "readystatechange"; Elapse 5]
                      ++ [Dispatch "DOMContentLoaded"]
                      ++ [Dispatch "load"; Elapse 4000; Dispatch "click"])
                     (script (page demo)))
    = 1%nat.
Proof.
  apply (handler_runs_once demo [Dispatch "readystatechange"; Elapse 5]
           [Dispatch "load"; Elapse 4000; Dispatch "click"]); not_ready.
Defined.

Lemma deferred_actions_commute_witness :
  (∀ s t h, h ≠ target t →
            nodes (document (run_timer s t)) !! h = nodes (document s) !! h)
  ∧ (∀ s t1 t2, run_timer (run_timer s t1) t2 = run_timer (run_timer s t2) t1)
  ∧ document (foldl run_timer (boot demo)
                [mkTimer 3000 (FadeOut 3); mkTimer 3000 (FadeOut 1)])
    = document (elapse 3000 (boot demo)).
Proof.
  apply (deferred_actions_commute demo
           [mkTimer 3000 (FadeOut 3); mkTimer 3000 (FadeOut 1)]).
  vm_compute. apply perm_swap.
Defined.

Lemma late_flash_not_faded_witness :
  (7%nat ∉ target <$> timers
     (run [ClassAdd 2 "flash"; InsertElement 7 banner1; Elapse 5000] (boot demo)))
  ∧ nodes (document (run [ClassAdd 2 "flash"; InsertElement 7 banner1; Elapse 5000]
                         (boot demo))) !! 7%nat
    = nodes (document (run [ClassAdd 2 "flash"; InsertElement 7 banner1; Elapse 5000]
                           (page demo))) !! 7%nat.
Proof.
  apply (late_flash_not_faded demo 7%nat
           [ClassAdd 2 "flash"; InsertElement 7 banner1; Elapse 5000]).
  - apply (bool_decide_unpack _). vm_compute. exact I.
  - not_ready.
Defined.

Lemma fade_is_deterministic_witness :
  document (run (Elapse <$> [3000]) (boot demo))
  = document (run (Elapse <$> [1000; 1000; 4000]) (boot demo)).
Proof.
  apply (fade_is_deterministic demo [3000] [1000; 1000; 4000]).
  right. split; vm_compute; discriminate.
Defined.

(** * Further properties of the script *)

(** ** Including the script several times *)

Lemma include_eq k s :
  include k s
  = with_listeners (listeners s ++ replicate k ("DOMContentLoaded", OnReady)) s.
Proof.
  unfold include. induction k as [|k IH].
  - simpl. rewrite app_nil_r. by destruct s.
  - rewrite replicate_S_end, app_assoc. simpl. rewrite IH. reflexivity.
Qed.

Lemma hits_replicate ty k :
  hits ty (replicate k ("DOMContentLoaded", OnReady))
  = if decide (ty = "DOMContentLoaded") then k else 0%nat.
Proof.
  unfold hits. induction k as [|k IH]; [by case_decide|].
  rewrite replicate_S. case_decide as Hty.
  - rewrite filter_cons_True by done. simpl. by rewrite IH.
  - rewrite filter_cons_False by (simpl; congruence). done.
Qed.

Lemma include_listeners d k tr :
  listeners (run tr (include k (page d)))
  = replicate k ("DOMContentLoaded", OnReady).
Proof.
  destruct (run_frame tr (include k (page d))) as (-> & _).
  by rewrite include_eq.
Qed.

Lemma ready_events_snoc tr a :
  ready_events (tr ++ [a])
  = (ready_events tr + if is_ready a then 1 else 0)%nat.
Proof.
  unfold ready_events. rewrite filter_app, length_app. f_equal.
  rewrite (filter_cons (λ a, is_ready a)), filter_nil.
  by destruct (is_ready a).
Qed.

Lemma invocations_perform s a k :
  listeners s = replicate k ("DOMContentLoaded", OnReady) →
  invocations (perform s a)
  = (invocations s + if is_ready a then k else 0)%nat.
Proof.
  intros Hl. destruct a as [ty|dt|h|h e|h c]; simpl; try lia.
  - rewrite dispatchEvent_eq, Hl, hits_replicate. simpl.
    destruct (decide (ty = "DOMContentLoaded")) as [->|Hne].
    + by rewrite bool_decide_eq_true_2.
    + by rewrite bool_decide_eq_false_2.
  - destruct (elapse_frame dt s) as (_ & _ & _ & _ & _ & _ & ->). lia.
Qed.

(** X2: the listener stays registered: on a page that includes the script
    [k] times, the listener has run [k] times for every dispatch of
    [DOMContentLoaded] in the trace, and no other action runs it. *)
Theorem listener_runs_per_dispatch (d : Document) (k : nat) (tr : list Action) :
  invocations (run tr (include k (page d))) = (k * ready_events tr)%nat.
Proof.
  induction tr as [|a tr IH] using rev_ind.
  - rewrite include_eq. simpl. unfold ready_events. simpl. lia.
  - rewrite run_snoc, (invocations_perform _ _ k), IH, ready_events_snoc.
    + destruct (is_ready a); lia.
    + apply include_listeners.
Qed.

(** ** The only exceptions *)

Lemma sound_include k s : sound s → sound (include k s).
Proof. by rewrite include_eq. Qed.

Lemma blameless_include k s : blameless s → blameless (include k s).
Proof. by rewrite include_eq. Qed.

Lemma sound_page d : sound (page d).
Proof. intros t Ht. by apply elem_of_nil in Ht. Qed.

Lemma blameless_page d : blameless (page d).
Proof. intros x Hx. by apply gmultiset_elem_of_empty in Hx. Qed.

(** X8: whatever the page did before the script was evaluated, however
    often the script is included, and whatever happens afterwards
    (repeated dispatches included), every exception that reaches the event
    loop is the [TypeError] of a callback whose captured element has no
    [style] property; when every element of the document has one, there is
    none. *)
Theorem script_throws_only_without_style (d : Document) (k : nat)
    (tr0 tr : list Action) :
  let s := run tr (include k (run tr0 (page d))) in
  (∀ x, x ∈ exceptions s →
        ∃ g, x = TypeError g ∧ style <$> nodes (document s) !! g = Some None)
  ∧ (map_Forall (λ _ e, is_Some (style e)) (nodes (document s)) →
     uncaught s = 0%nat).
Proof.
  cbv zeta.
  assert (Hb : blameless (run tr (include k (run tr0 (page d))))).
  { apply blameless_run.
    - apply sound_include, sound_run, sound_page.
    - apply blameless_include, blameless_run;
        [apply sound_page|apply blameless_page]. }
  split; [done|]. intros Hall.
  destruct (uncaught (run tr (include k (run tr0 (page d))))) as [|n] eqn:E;
    [done|].
  destruct (gmultiset_size_pos_elem_of
              (exceptions (run tr (include k (run tr0 (page d))))))
    as [x Hx]; [unfold uncaught in E; lia|].
  destruct (Hb x Hx) as (g & -> & Hg).
  destruct (nodes (document (run tr (include k (run tr0 (page d))))) !! g)
    as [e|] eqn:Eg; [|done].
  apply Hall in Eg as [st Hst]. simpl in Hg. congruence.
Qed.

(** ** A faded element stays faded *)

Lemma faded_perform s f a :
  style_of f "opacity" s = Some "0" →
  style_of f "opacity" (perform s a) = Some "0".
Proof.
  intros Hz.
  assert (Hst : styled (document s) f) by by apply (style_of_styled _ _ _ _ Hz).
  assert (Hs : is_Some (nodes (document s) !! f)) by by apply styled_is_Some.
  destruct a as [ty|dt|h|h e|h c]; try (by rewrite style_of_page_action).
  - simpl. unfold style_of. by rewrite dispatchEvent_eq.
  - simpl. destruct (style_of_elapse dt s f "opacity") as [->|[_ Hn]]; [done|].
    by apply (style_of_faded (nodes (document s) !! f)).
Qed.

(** X7: from any host state, an element whose inline opacity is ["0"]
    keeps it through every later dispatch, timer callback and page action:
    the script never writes any other value. *)
Theorem faded_stays_faded (s : Host) (f : handle) (tr : list Action) :
  style_of f "opacity" s = Some "0" →
  style_of f "opacity" (run tr s) = Some "0".
Proof.
  revert s. induction tr as [|a tr IH]; intros s Hz; [done|].
  simpl. apply IH. by apply faded_perform.
Qed.

(** ** A script evaluated too late *)

Lemma run_timers_with_listeners ls ts s :
  foldl run_timer (with_listeners ls s) ts
  = with_listeners ls (foldl run_timer s ts).
Proof.
  revert s. induction ts as [|t ts IH]; intros s; [done|]. simpl.
  rewrite <- IH. f_equal. unfold run_timer; simpl.
  by destruct (call (callback t) (document s)).
Qed.

Lemma elapse_with_listeners ls dt s :
  elapse dt (with_listeners ls s) = with_listeners ls (elapse dt s).
Proof. unfold elapse. cbv zeta. by rewrite <- run_timers_with_listeners. Qed.

Lemma late_perform s a :
  plain s → a ≠ Dispatch "DOMContentLoaded" →
  perform (with_listeners [("DOMContentLoaded", OnReady)] s) a
  = with_listeners [("DOMContentLoaded", OnReady)] (perform s a).
Proof.
  intros Hp Ha. destruct a as [ty|dt|h|h e|h c]; try done.
  - simpl. by rewrite dispatch_other, plain_dispatch by (done || congruence).
  - apply elapse_with_listeners.
Qed.

(** X1: the listener is only registered, never run on the spot.  If the
    script is evaluated on a page whose [DOMContentLoaded] has already been
    dispatched (or is never dispatched afterwards), the page goes on exactly
    as it would without the script, but for the registered listener: no
    timer is ever pending and no banner fades. *)
Theorem late_script_never_fades (d : Document) (tr0 tr : list Action) :
  Dispatch "DOMContentLoaded" ∉ tr →
  run tr (script (run tr0 (page d)))
  = with_listeners [("DOMContentLoaded", OnReady)] (run tr (run tr0 (page d)))
  ∧ timers (run tr (script (run tr0 (page d)))) = [].
Proof.
  intros Hq.
  assert (Hp : plain (run tr0 (page d))) by by apply plain_run.
  assert (E : run tr (script (run tr0 (page d)))
              = with_listeners [("DOMContentLoaded", OnReady)]
                  (run tr (run tr0 (page d)))).
  { unfold script, addEventListener. rewrite (proj1 Hp). simpl.
    induction tr as [|a tr IH] using rev_ind; [done|].
    rewrite not_elem_of_app in Hq. destruct Hq as [Hq Ha].
    rewrite !run_snoc, IH by done. apply late_perform.
    - by apply plain_run.
    - intros ->. apply Ha, list_elem_of_here. }
  split; [done|]. rewrite E. simpl. by apply plain_run, plain_run.
Qed.

(** ** Several inclusions fade the same banners *)

Lemma document_ext (d1 d2 : Document) :
  nodes d1 = nodes d2 → tree d1 = tree d2 → d1 = d2.
Proof. destruct d1, d2; simpl. by intros -> ->. Qed.

Lemma elem_of_join_replicate {A} (x : A) k (l : list A) :
  x ∈ mjoin (replicate k l) ↔ x ∈ l ∧ k ≠ 0%nat.
Proof.
  rewrite list_elem_of_join. split.
  - intros (l' & Hx & [-> Hk]%elem_of_replicate). done.
  - intros [Hx Hk]. exists l. split; [done|]. by apply elem_of_replicate.
Qed.

Lemma length_join_replicate {A} k (l : list A) :
  length (mjoin (replicate k l)) = (k * length l)%nat.
Proof.
  induction k as [|k IH]; [done|].
  rewrite replicate_S. simpl. rewrite length_app, IH. lia.
Qed.

Lemma include_boot_timers d k :
  timers (dispatchEvent "DOMContentLoaded" (include k (page d)))
  = mjoin (replicate k ((λ f, mkTimer 3000 (FadeOut f)) <$> flashes d)).
Proof.
  rewrite dispatchEvent_eq, include_eq. simpl.
  rewrite hits_replicate. by rewrite decide_True.
Qed.

Lemma filter_join_replicate {A} (P : A → Prop) `{!∀ x, Decision (P x)}
    k (l : list A) :
  filter P (mjoin (replicate k l)) = mjoin (replicate k (filter P l)).
Proof.
  induction k as [|k IH]; [done|].
  rewrite !replicate_S. simpl. by rewrite filter_app, IH.
Qed.

Lemma one_timer_per_flash (l : list handle) f :
  NoDup l → f ∈ l →
  length (filter (λ t, target t = f)
                 ((λ f, mkTimer 3000 (FadeOut f)) <$> l)) = 1%nat.
Proof.
  induction 1 as [|x l Hx Hl IH]; intros Hf; [by apply elem_of_nil in Hf|].
  rewrite fmap_cons. destruct (decide (x = f)) as [->|Hne].
  - rewrite filter_cons_True by done. rewrite filter_none; [done|].
    intros t (g & -> & Hg)%list_elem_of_fmap Heq. simpl in Heq.
    subst. contradiction.
  - rewrite filter_cons_False by done. apply IH.
    apply elem_of_cons in Hf as [->|Hf]; [done|done].
Qed.

(** X3: a page that includes the script [k ≥ 1] times registers exactly [k]
    timers for each matched element at the trigger; at every later instant
    the document is the one a single inclusion produces, and the number of
    uncaught exceptions is [k] times that of a single inclusion. *)
Theorem repeated_inclusion_is_harmless (d : Document) (k : nat) (n : N) :
  (0 < k)%nat → NoDup (tree d) →
  let s := dispatchEvent "DOMContentLoaded" (include k (page d)) in
  (∀ f, f ∈ flashes d →
        length (filter (λ t, target t = f) (timers s)) = k)
  ∧ document (elapse n s) = document (elapse n (boot d))
  ∧ uncaught (elapse n s) = (k * uncaught (elapse n (boot d)))%nat.
Proof.
  intros Hk Hnd. cbv zeta. split; [|split].
  - intros f Hf.
    rewrite include_boot_timers, filter_join_replicate, length_join_replicate.
    rewrite one_timer_per_flash; [lia| |done].
    unfold flashes, select. by apply NoDup_filter.
  - apply document_ext.
    + apply map_eq. intros h. rewrite !elapse_lookup.
      assert (Hin : h ∈ target <$> ready
                      (clock (dispatchEvent "DOMContentLoaded" (include k (page d))) + n)
                      (timers (dispatchEvent "DOMContentLoaded" (include k (page d))))
                    ↔ h ∈ target <$> ready (clock (boot d) + n) (timers (boot d))).
      { rewrite include_boot_timers, boot_eq. unfold ready.
        rewrite dispatchEvent_eq, include_eq. simpl.
        rewrite !list_elem_of_fmap. split.
        - intros (t & -> & [Hd [Ht _]%elem_of_join_replicate]%list_elem_of_filter).
          exists t. split; [done|]. by apply list_elem_of_filter.
        - intros (t & -> & [Hd Ht]%list_elem_of_filter).
          exists t. split; [done|]. apply list_elem_of_filter. split; [done|].
          apply elem_of_join_replicate. split; [done|lia]. }
      rewrite dispatchEvent_eq, include_eq, boot_eq in *. simpl in *.
      repeat case_decide; tauto || done.
    + destruct (elapse_frame n (dispatchEvent "DOMContentLoaded" (include k (page d))))
        as (-> & _).
      destruct (elapse_frame n (boot d)) as (-> & _).
      by rewrite dispatchEvent_eq, include_eq, boot_eq.
  - rewrite !elapse_uncaught. unfold ready.
    rewrite include_boot_timers, !filter_join_replicate, length_join_replicate.
    rewrite dispatchEvent_eq, include_eq, boot_eq. unfold uncaught. simpl.
    rewrite (gmultiset_size_empty (A := Exception)). lia.
Qed.

(** ** The delay counts from the trigger *)

Lemma loaded_listeners d tr :
  listeners (run tr (script (page d))) = [("DOMContentLoaded", OnReady)].
Proof. by destruct (run_frame tr (script (page d))) as (-> & _). Qed.

Lemma quiet_timers s tr :
  listeners s = [("DOMContentLoaded", OnReady)] → timers s = [] →
  Dispatch "DOMContentLoaded" ∉ tr → timers (run tr s) = [].
Proof.
  intros Hl Ht. induction tr as [|a tr IH] using rev_ind; intros Hq; [done|].
  rewrite not_elem_of_app in Hq. destruct Hq as [Hq Ha].
  specialize (IH Hq). rewrite run_snoc.
  assert (Hl' : listeners (run tr s) = [("DOMContentLoaded", OnReady)]).
  { by destruct (run_frame tr s) as (-> & _). }
  destruct a as [ty|dt|h|h e|h c]; try done.
  - simpl. rewrite dispatch_other; [done| |done].
    intros ->. apply Ha, list_elem_of_here.
  - simpl. destruct (elapse_frame dt (run tr s)) as (_ & _ & _ & -> & _).
    by rewrite IH.
Qed.

Lemma trigger_eq s :
  listeners s = [("DOMContentLoaded", OnReady)] →
  dispatchEvent "DOMContentLoaded" s
  = mkHost (document s) (clock s) (listeners s) (timers s ++ fade_timers s)
           (storage s) (requests s) (exceptions s) (S (invocations s)).
Proof.
  intros Hl. rewrite dispatchEvent_eq, Hl.
  change (hits "DOMContentLoaded" [("DOMContentLoaded", OnReady)]) with 1%nat.
  simpl. rewrite app_nil_r. f_equal. lia.
Qed.

Lemma fading_by_perform T f s a : fading_by T f s → fading_by T f (perform s a).
Proof.
  intros [Hs Hc].
  assert (Hs' : styled (document (perform s a)) f).
  { destruct a as [ty|dt|h|h e|h c]; try (by apply page_action_styled).
    - simpl. by rewrite dispatchEvent_eq.
    - by apply styled_elapse. }
  split; [done|].
  destruct Hc as [[Hlt Hin]|Hz]; [|right; by apply faded_perform].
  destruct a as [ty|dt|h|h e|h c].
  - left. simpl. rewrite dispatchEvent_eq. simpl.
    split; [done|]. apply elem_of_app. by left.
  - simpl. destruct (elapse_frame dt s) as (_ & HC & _ & HT & _).
    destruct (decide (T ≤ clock s + dt)) as [Hge|Hlt'].
    + right. apply (style_of_faded (nodes (document s) !! f)); [|done].
      rewrite elapse_lookup, decide_True; [done|].
      apply (list_elem_of_fmap_2' _ _ (mkTimer T (FadeOut f))); [|done].
      apply list_elem_of_filter. by split.
    + left. rewrite HC, HT. split; [lia|].
      apply list_elem_of_filter. split; [simpl; lia|done].
  - left. by destruct (page_action_host (RemoveChild h) s I) as (-> & _ & -> & _).
  - left. by destruct (page_action_host (InsertElement h e) s I) as (-> & _ & -> & _).
  - left. by destruct (page_action_host (ClassAdd h c) s I) as (-> & _ & -> & _).
Qed.

Lemma fading_by_run T f tr s : fading_by T f s → fading_by T f (run tr s).
Proof.
  revert s. induction tr as [|a tr IH]; intros s Hs; [done|].
  simpl. apply IH. by apply fading_by_perform.
Qed.

(** X4: whenever the event is dispatched, however much time passed and
    whatever the page did since the script was evaluated, an element that
    matches [.flash] at that instant and has a [style] property has
    opacity ["0"] in every state reached 3000 ms or more after the
    dispatch, through any further dispatches, waits, detachments,
    insertions and class additions. *)
Theorem flash_fades_after_trigger (d : Document) (f : handle)
    (tr0 tr : list Action) :
  f ∈ flashes (document (run tr0 (script (page d)))) →
  styled (document (run tr0 (script (page d)))) f →
  3000 ≤ elapsed tr →
  style_of f "opacity"
    (run tr (dispatchEvent "DOMContentLoaded" (run tr0 (script (page d)))))
  = Some "0".
Proof.
  intros Hf Hst Hge.
  set (s0 := run tr0 (script (page d))) in *.
  assert (Hl : listeners s0 = [("DOMContentLoaded", OnReady)])
    by apply loaded_listeners.
  assert (Hi : fading_by (clock s0 + 3000) f
                 (dispatchEvent "DOMContentLoaded" s0)).
  { rewrite trigger_eq by done. split; simpl; [done|].
    left. split; [lia|]. apply elem_of_app. right.
    apply elem_of_fade_timers. eauto. }
  destruct (fading_by_run _ _ tr _ Hi) as [_ [[Hlt _]|Hz]]; [|done].
  destruct (run_frame tr (dispatchEvent "DOMContentLoaded" s0))
    as (_ & _ & _ & Hc).
  rewrite Hc, trigger_eq in Hlt by done. simpl in Hlt. lia.
Qed.

Lemma deadline_perform T s a :
  T ≤ clock s + 3000 → (∀ t, t ∈ timers s → T ≤ due t) →
  T ≤ clock (perform s a) + 3000
  ∧ ∀ t, t ∈ timers (perform s a) → T ≤ due t.
Proof.
  intros Hc Ht. destruct (perform_frame s a) as (_ & _ & _ & ->).
  split; [lia|]. destruct a as [ty|dt|h|h e|h c]; try done.
  - simpl. rewrite dispatchEvent_eq. simpl.
    intros t [Hin|Hin]%elem_of_app; [by apply Ht|].
    apply new_timers_spec in Hin as [-> _]. done.
  - simpl. destruct (elapse_frame dt s) as (_ & _ & _ & -> & _).
    intros t [_ Hin]%list_elem_of_filter. by apply Ht.
Qed.

Lemma early_styles_from T s h tr :
  T ≤ clock s + 3000 → (∀ t, t ∈ timers s → T ≤ due t) →
  is_Some (nodes (document s) !! h) → clock s + elapsed tr < T →
  (T ≤ clock (run tr s) + 3000 ∧ ∀ t, t ∈ timers (run tr s) → T ≤ due t)
  ∧ style <$> nodes (document (run tr s)) !! h
    = style <$> nodes (document s) !! h.
Proof.
  intros Hc Ht Hh. induction tr as [|a tr IH] using rev_ind; intros He.
  - done.
  - rewrite elapsed_app in He. rewrite run_snoc.
    destruct IH as [[Hc' Ht'] IH]; [lia|].
    split; [by apply deadline_perform|].
    assert (Hs : is_Some (nodes (document (run tr s)) !! h)).
    { apply (fmap_is_Some style). rewrite IH. by apply fmap_is_Some. }
    rewrite <- IH.
    destruct a as [ty|dt|h'|h' e|h' c];
      try (by apply page_action_style).
    + simpl. by rewrite dispatchEvent_eq.
    + simpl. rewrite elapse_lookup. unfold ready.
      rewrite (filter_none (λ t, due t ≤ clock (run tr s) + dt)); [done|].
      intros t Hin Hd. specialize (Ht' t Hin).
      destruct (run_frame tr s) as (_ & _ & _ & Hk). simpl in He. lia.
Qed.

(** X5: if the dispatch is the first one since the script was evaluated,
    the inline style of every element that exists at that instant is left
    as it is while less than 3000 ms have passed since the dispatch. *)
Theorem no_fade_before_trigger_delay (d : Document) (h : handle)
    (tr0 tr : list Action) :
  Dispatch "DOMContentLoaded" ∉ tr0 →
  is_Some (nodes (document (run tr0 (script (page d)))) !! h) →
  elapsed tr < 3000 →
  style <$> nodes (document
              (run tr (dispatchEvent "DOMContentLoaded"
                         (run tr0 (script (page d)))))) !! h
  = style <$> nodes (document (run tr0 (script (page d)))) !! h.
Proof.
  intros Hq Hh Hlt.
  set (s0 := run tr0 (script (page d))) in *.
  assert (Hl : listeners s0 = [("DOMContentLoaded", OnReady)])
    by apply loaded_listeners.
  assert (Ht : timers s0 = []) by by apply quiet_timers.
  destruct (early_styles_from (clock s0 + 3000)
              (dispatchEvent "DOMContentLoaded" s0) h tr) as [_ E].
  - rewrite trigger_eq by done. simpl. lia.
  - rewrite trigger_eq, Ht by done. simpl.
    by intros t (f & -> & _)%elem_of_fade_timers.
  - by rewrite trigger_eq.
  - rewrite trigger_eq by done. simpl. lia.
  - rewrite E. by rewrite trigger_eq.
Qed.

Lemma pending_at_perform T s a :
  listeners s = [("DOMContentLoaded", OnReady)] →
  a ≠ Dispatch "DOMContentLoaded" →
  pending_at T s → pending_at T (perform s a).
Proof.
  intros Hl Ha Hp. destruct a as [ty|dt|h|h e|h c]; try done.
  - simpl. by rewrite dispatch_other by (done || congruence).
  - simpl. intros t. destruct (elapse_frame dt s) as (_ & -> & _ & -> & _).
    intros [Hd Hin]%list_elem_of_filter. destruct (Hp t Hin) as [<- _]. done.
Qed.

Lemma pending_at_run T s tr :
  listeners s = [("DOMContentLoaded", OnReady)] →
  Dispatch "DOMContentLoaded" ∉ tr →
  pending_at T s → pending_at T (run tr s).
Proof.
  intros Hl Hq Hp. induction tr as [|a tr IH] using rev_ind; [done|].
  rewrite not_elem_of_app in Hq. destruct Hq as [Hq Ha].
  rewrite run_snoc. apply pending_at_perform; [| |by apply IH].
  - by destruct (run_frame tr s) as (-> & _).
  - intros ->. apply Ha, list_elem_of_here.
Qed.

(** X6: the callbacks are one-shot.  When the event is dispatched once,
    every timer the listener registered has left the queue 3000 ms after
    the dispatch, and nothing is pending from then on. *)
Theorem queue_drains_after_delay (d : Document) (tr0 tr : list Action) :
  Dispatch "DOMContentLoaded" ∉ tr0 → Dispatch "DOMContentLoaded" ∉ tr →
  3000 ≤ elapsed tr →
  timers (run tr (dispatchEvent "DOMContentLoaded" (run tr0 (script (page d)))))
  = [].
Proof.
  intros Hq0 Hq Hge.
  set (s0 := run tr0 (script (page d))) in *.
  assert (Hl : listeners s0 = [("DOMContentLoaded", OnReady)])
    by apply loaded_listeners.
  assert (Ht : timers s0 = []) by by apply quiet_timers.
  assert (Hp : pending_at (clock s0 + 3000)
                 (run tr (dispatchEvent "DOMContentLoaded" s0))).
  { apply pending_at_run; [by rewrite trigger_eq|done|].
    rewrite trigger_eq, Ht by done. intros t. simpl.
    intros (f & -> & _)%elem_of_fade_timers. simpl. split; [done|lia]. }
  apply elem_of_nil_inv. intros t Hin. destruct (Hp t Hin) as [_ Hlt].
  destruct (run_frame tr (dispatchEvent "DOMContentLoaded" s0))
    as (_ & _ & _ & Hc).
  rewrite Hc, trigger_eq in Hlt by done. simpl in Hlt. lia.
Qed.

(** ** The queue is first in, first out *)

Lemma StronglySorted_filter {A} (R : relation A) (P : A → Prop)
    `{!∀ x, Decision (P x)} (l : list A) :
  StronglySorted R l → StronglySorted R (filter P l).
Proof.
  induction l as [|x l IH]; [done|].
  rewrite StronglySorted_cons. intros [Hx Hl]. rewrite filter_cons.
  case_decide; [|by apply IH].
  apply StronglySorted_cons. split; [|by apply IH].
  apply Forall_forall. intros y [_ Hy]%list_elem_of_filter.
  by apply (proj1 (Forall_forall _ _) Hx).
Qed.

Lemma StronglySorted_same_due c (l : list Timer) :
  (∀ t, t ∈ l → due t = c) → StronglySorted due_order l.
Proof.
  induction l as [|x l IH]; intros Hl; [constructor|].
  apply StronglySorted_cons. split.
  - apply Forall_forall. intros y Hy. unfold due_order.
    rewrite (Hl x), (Hl y); [done| |apply list_elem_of_here].
    by apply list_elem_of_further.
  - apply IH. intros t Ht. by apply Hl, list_elem_of_further.
Qed.

Lemma fifo_perform s a : fifo s → fifo (perform s a).
Proof.
  intros [Hs Hb]. destruct (perform_frame s a) as (_ & _ & _ & Hc).
  destruct a as [ty|dt|h|h e|h c]; try done.
  - simpl in *. rewrite dispatchEvent_eq. split; simpl.
    + apply StronglySorted_app_2; [|done|].
      * intros t1 t2 H1 [H2 _]%new_timers_spec. unfold due_order.
        rewrite H2. by apply Hb.
      * apply (StronglySorted_same_due (clock s + 3000)).
        by intros t [H2 _]%new_timers_spec.
    + intros t [Hin|Hin]%elem_of_app; [by apply Hb|].
      apply new_timers_spec in Hin as [-> _]. done.
  - unfold perform, fifo. destruct (elapse_frame dt s) as (_ & -> & _ & -> & _).
    split; [by apply StronglySorted_filter|].
    intros t [_ Hin]%list_elem_of_filter. specialize (Hb t Hin). lia.
Qed.

Lemma fifo_run tr s : fifo s → fifo (run tr s).
Proof.
  revert s. induction tr as [|a tr IH]; intros s Hs; [done|].
  simpl. apply IH. by apply fifo_perform.
Qed.

(** X9: because every timer is registered with the same delay, the queue
    is in non-decreasing due order in every reachable state, whatever the
    number of inclusions and of dispatches: callbacks run in the order they
    were registered, banners of one dispatch in document order. *)
Theorem timers_in_due_order (d : Document) (k : nat) (tr : list Action) :
  StronglySorted due_order (timers (run tr (include k (page d)))).
Proof.
  apply fifo_run. rewrite include_eq. split; simpl; [constructor|].
  intros t Ht. by apply elem_of_nil in Ht.
Qed.

(** ** Instances on the concrete page *)

Lemma late_script_never_fades_witness :
  run [Elapse 5000; Dispatch "load"]
      (script (run [Dispatch "DOMContentLoaded"; Elapse 10] (page demo)))
  = with_listeners [("DOMContentLoaded", OnReady)]
      (run [Elapse 5000; Dispatch "load"]
           (run [Dispatch "DOMContentLoaded"; Elapse 10] (page demo)))
  ∧ timers (run [Elapse 5000; Dispatch "load"]
              (script (run [Dispatch "DOMContentLoaded"; Elapse 10] (page demo))))
    = [].
Proof.
  apply (late_script_never_fades demo [Dispatch "DOMContentLoaded"; Elapse 10]
           [Elapse 5000; Dispatch "load"]).
  not_ready.
Defined.

Lemma repeated_inclusion_is_harmless_witness :
  let s := dispatchEvent "DOMContentLoaded" (include 2 (page mixed)) in
  (∀ f, f ∈ flashes mixed →
        length (filter (λ t, target t = f) (timers s)) = 2%nat)
  ∧ document (elapse 3000 s) = document (elapse 3000 (boot mixed))
  ∧ uncaught (elapse 3000 s) = (2 * uncaught (elapse 3000 (boot mixed)))%nat.
Proof.
  apply (repeated_inclusion_is_harmless mixed 2 3000).
  - lia.
  - apply (bool_decide_unpack _). vm_compute. exact I.
Defined.

Lemma script_throws_only_without_style_witness :
  uncaught (run [Dispatch "DOMContentLoaded"; Elapse 3000;
                 Dispatch "DOMContentLoaded"; Elapse 3000]
                (include 2 (run [Elapse 10] (page demo)))) = 0%nat.
Proof.
  apply (script_throws_only_without_style demo 2 [Elapse 10]
           [Dispatch "DOMContentLoaded"; Elapse 3000;
            Dispatch "DOMContentLoaded"; Elapse 3000]).
  apply (bool_decide_unpack _). vm_compute. exact I.
Defined.

Lemma flash_fades_after_trigger_witness :
  style_of 2 "opacity"
    (run [Elapse 3000]
       (dispatchEvent "DOMContentLoaded"
          (run [Elapse 500; ClassAdd 2 "flash"] (script (page demo)))))
  = Some "0".
Proof.
  apply (flash_fades_after_trigger demo 2%nat
           [Elapse 500; ClassAdd 2 "flash"] [Elapse 3000]).
  - in_list.
  - vm_compute. eauto.
  - vm_compute. discriminate.
Defined.

Lemma no_fade_before_trigger_delay_witness :
  style <$> nodes (document
              (run [Elapse 2999]
                 (dispatchEvent "DOMContentLoaded"
                    (run [Elapse 500] (script (page demo)))))) !! 1%nat
  = style <$> nodes (document (run [Elapse 500] (script (page demo)))) !! 1%nat.
Proof.
  apply (no_fade_before_trigger_delay demo 1%nat [Elapse 500] [Elapse 2999]).
  - not_ready.
  - vm_compute. eauto.
  - vm_compute. reflexivity.
Defined.

Lemma queue_drains_after_delay_witness :
  timers (run [Elapse 1000; Elapse 2000]
            (dispatchEvent "DOMContentLoaded"
               (run [Elapse 500] (script (page demo)))))
  = [].
Proof.
  apply (queue_drains_after_delay demo [Elapse 500] [Elapse 1000; Elapse 2000]).
  - not_ready.
  - not_ready.
  - vm_compute. discriminate.
Defined.

Lemma faded_stays_faded_witness :
  style_of 1 "opacity"
    (run [Dispatch "DOMContentLoaded"; ClassAdd 1 "seen"; Elapse 10000]
         (run [Elapse 3000] (boot demo)))
  = Some "0".
Proof.
  apply (faded_stays_faded (run [Elapse 3000] (boot demo)) 1%nat
           [Dispatch "DOMContentLoaded"; ClassAdd 1 "seen"; Elapse 10000]).
  vm_compute. reflexivity.
Defined.
